(** * Verification of the URL-to-SQL query builder (postgrest-go)

    Shallow embedding of [BuildQuery] and its helpers ([splitSelectFields],
    [singularize], [columnExists], [parseJoins], ...) and of the
    [HandleSelect] handler, followed by the properties of that code the
    specification speaks about.

    Conventions.
    - A Go [string] is a sequence of bytes: [string] of the Standard
      Library, one [ascii] per byte.  Where the code iterates a string by
      [range] it sees UTF-8 decoded runes; that decoding is modelled by
      [rangeString].
    - [int] is 64 bits wide; [uint(n)] wraps modulo 2^64.
    - [url.Values] is a Go map from keys to non-empty value slices; it is
      represented by an association list whose order stands for the
      (unspecified) order in which one run of [range] visits the map.
    - The goqu dataset is represented by its clauses as the builder calls
      leave them; rendering ([ToSQL]) is goqu's and stays abstract. *)

From Stdlib Require Import ZArith List Bool Ascii String Lia.
Import ListNotations.

Local Open Scope string_scope.
Local Open Scope Z_scope.

(** ** Bytes *)

Definition byteZ (c : ascii) : Z := Z.of_N (N_of_ascii c).

(** Go's conversion [byte(x)]: the low eight bits. *)
Definition zbyte (z : Z) : ascii := ascii_of_N (Z.to_N (Z.land z 0xFF)).

Definition str1 (c : ascii) : string := String c EmptyString.

(** ** UTF-8, as [range] over a string and [strings.Builder.WriteRune] see it *)

Module utf8.

Definition RuneError : Z := 0xFFFD.
Definition RuneSelf : Z := 0x80.
Definition MaxRune : Z := 0x10FFFF.
Definition surrogateMin : Z := 0xD800.
Definition surrogateMax : Z := 0xDFFF.

Definition t1 : Z := 0x00.
Definition tx : Z := 0x80.
Definition t2 : Z := 0xC0.
Definition t3 : Z := 0xE0.
Definition t4 : Z := 0xF0.
Definition t5 : Z := 0xF8.

Definition maskx : Z := 0x3F.
Definition mask2 : Z := 0x1F.
Definition mask3 : Z := 0x0F.
Definition mask4 : Z := 0x07.

Definition rune1Max : Z := 0x7F.
Definition rune2Max : Z := 0x7FF.
Definition rune3Max : Z := 0xFFFF.

Definition locb : Z := 0x80.
Definition hicb : Z := 0xBF.

(** A continuation byte. *)
Definition cont (c : ascii) : bool := (locb <=? byteZ c) && (byteZ c <=? hicb).

Definition rune2 (c0 c1 : ascii) : Z :=
  Z.lor (Z.shiftl (Z.land (byteZ c0) mask2) 6) (Z.land (byteZ c1) maskx).

Definition rune3 (c0 c1 c2 : ascii) : Z :=
  Z.lor (Z.lor (Z.shiftl (Z.land (byteZ c0) mask3) 12)
               (Z.shiftl (Z.land (byteZ c1) maskx) 6))
        (Z.land (byteZ c2) maskx).

Definition rune4 (c0 c1 c2 c3 : ascii) : Z :=
  Z.lor (Z.lor (Z.lor (Z.shiftl (Z.land (byteZ c0) mask4) 18)
                      (Z.shiftl (Z.land (byteZ c1) maskx) 12))
               (Z.shiftl (Z.land (byteZ c2) maskx) 6))
        (Z.land (byteZ c3) maskx).

Definition is2 (c0 c1 : ascii) : bool :=
  (t2 <=? byteZ c0) && (byteZ c0 <? t3) && cont c1 && (rune1Max <? rune2 c0 c1).

Definition is3 (c0 c1 c2 : ascii) : bool :=
  (t3 <=? byteZ c0) && (byteZ c0 <? t4) && cont c1 && cont c2
  && (rune2Max <? rune3 c0 c1 c2)
  && negb ((surrogateMin <=? rune3 c0 c1 c2) && (rune3 c0 c1 c2 <=? surrogateMax)).

Definition is4 (c0 c1 c2 c3 : ascii) : bool :=
  (t4 <=? byteZ c0) && (byteZ c0 <? t5) && cont c1 && cont c2 && cont c3
  && (rune3Max <? rune4 c0 c1 c2 c3) && (rune4 c0 c1 c2 c3 <=? MaxRune).

(** [for _, r := range s]: the runes of [s] in order, each with the number
    of bytes it was decoded from.  A byte below [RuneSelf] is its own rune;
    otherwise the runtime's [decoderune] recognises a two-, three- or
    four-byte sequence, and anything else yields [RuneError] and advances
    by one byte. *)
Fixpoint rangeString (s : string) : list (Z * nat) :=
  match s with
  | EmptyString => []
  | String c0 s1 =>
    if byteZ c0 <? RuneSelf then (byteZ c0, 1%nat) :: rangeString s1
    else
      match s1 with
      | EmptyString => (RuneError, 1%nat) :: rangeString s1
      | String c1 s2 =>
        if is2 c0 c1 then (rune2 c0 c1, 2%nat) :: rangeString s2
        else
          match s2 with
          | EmptyString => (RuneError, 1%nat) :: rangeString s1
          | String c2 s3 =>
            if is3 c0 c1 c2 then (rune3 c0 c1 c2, 3%nat) :: rangeString s3
            else
              match s3 with
              | EmptyString => (RuneError, 1%nat) :: rangeString s1
              | String c3 s4 =>
                if is4 c0 c1 c2 c3
                then (rune4 c0 c1 c2 c3, 4%nat) :: rangeString s4
                else (RuneError, 1%nat) :: rangeString s1
              end
          end
      end
  end.

Definition runes (s : string) : list Z := map fst (rangeString s).

(** [utf8.ValidString]: no decoding step reports [(RuneError, 1)]. *)
Definition ValidString (s : string) : bool :=
  forallb (fun rw => negb ((fst rw =? RuneError) && Nat.eqb (snd rw) 1))
          (rangeString s).

(** [utf8.AppendRune], which [Builder.WriteRune] appends to the buffer. *)
Definition encode3 (r : Z) : string :=
  String (zbyte (Z.lor t3 (Z.shiftr r 12)))
    (String (zbyte (Z.lor tx (Z.land (Z.shiftr r 6) maskx)))
      (String (zbyte (Z.lor tx (Z.land r maskx))) EmptyString)).

Definition AppendRune (r : Z) : string :=
  if (0 <=? r) && (r <=? rune1Max) then str1 (zbyte r)
  else if (0 <=? r) && (r <=? rune2Max) then
    String (zbyte (Z.lor t2 (Z.shiftr r 6)))
      (String (zbyte (Z.lor tx (Z.land r maskx))) EmptyString)
  else if (r <? 0) || (MaxRune <? r)
          || ((surrogateMin <=? r) && (r <=? surrogateMax)) then
    encode3 RuneError
  else if r <=? rune3Max then encode3 r
  else
    String (zbyte (Z.lor t4 (Z.shiftr r 18)))
      (String (zbyte (Z.lor tx (Z.land (Z.shiftr r 12) maskx)))
        (String (zbyte (Z.lor tx (Z.land (Z.shiftr r 6) maskx)))
          (String (zbyte (Z.lor tx (Z.land r maskx))) EmptyString))).

End utf8.

(** The rune of an ASCII character literal such as [','] in the Go source. *)
Definition rune (c : ascii) : Z := byteZ c.

(** ** The parts of package [strings] the builder uses *)

Fixpoint HasPrefix (s p : string) {struct p} : bool :=
  match p with
  | EmptyString => true
  | String a p' =>
    match s with
    | EmptyString => false
    | String b s' => Ascii.eqb b a && HasPrefix s' p'
    end
  end.

Fixpoint Contains (s sub : string) : bool :=
  HasPrefix s sub
  || match s with
     | EmptyString => false
     | String _ s' => Contains s' sub
     end.

(** [len(s) >= len(suffix) && s[len(s)-len(suffix):] == suffix] *)
Definition HasSuffix (s suffix : string) : bool :=
  (String.length suffix <=? String.length s)%nat
  && String.eqb (substring (String.length s - String.length suffix)
                           (String.length suffix) s) suffix.

Definition TrimSuffix (s suffix : string) : string :=
  if HasSuffix s suffix
  then substring 0 (String.length s - String.length suffix) s
  else s.

(** [strings.Split(s, sep)] for a one-byte separator: every piece between
    separators, so a string without separator (also the empty one) gives
    one piece. *)
Fixpoint Split (s : string) (sep : ascii) : list string :=
  match s with
  | EmptyString => [EmptyString]
  | String c s' =>
    if Ascii.eqb c sep then EmptyString :: Split s' sep
    else match Split s' sep with
         | h :: t => String c h :: t
         | [] => [str1 c]
         end
  end.

(** [strings.SplitN(s, sep, 2)] for a one-byte separator: cut at the first
    separator, or the whole string alone when there is none. *)
Fixpoint SplitN2 (s : string) (sep : ascii) : list string :=
  match s with
  | EmptyString => [EmptyString]
  | String c s' =>
    if Ascii.eqb c sep then [EmptyString; s']
    else match SplitN2 s' sep with
         | h :: t => String c h :: t
         | [] => [str1 c]
         end
  end.

Fixpoint Join (elems : list string) (sep : string) : string :=
  match elems with
  | [] => EmptyString
  | [e] => e
  | e :: rest => e ++ sep ++ Join rest sep
  end.

Fixpoint srev (s : string) : string :=
  match s with
  | EmptyString => EmptyString
  | String c s' => srev s' ++ str1 c
  end.

(** [unicode.IsSpace] *)
Definition IsSpace (r : Z) : bool :=
  ((0x09 <=? r) && (r <=? 0x0D)) || (r =? 0x20) || (r =? 0x85) || (r =? 0xA0)
  || (r =? 0x1680) || ((0x2000 <=? r) && (r <=? 0x200A))
  || (r =? 0x2028) || (r =? 0x2029) || (r =? 0x202F) || (r =? 0x205F)
  || (r =? 0x3000).

(** [strings.TrimLeftFunc(s, unicode.IsSpace)]: drop leading runes while
    they are white space.  No white-space rune takes four bytes and
    [RuneError] is not white space, so an undecodable byte stops it. *)
Fixpoint TrimLeftSpace (s : string) : string :=
  match s with
  | EmptyString => EmptyString
  | String c0 s1 =>
    if byteZ c0 <? utf8.RuneSelf
    then (if IsSpace (byteZ c0) then TrimLeftSpace s1 else s)
    else
      match s1 with
      | EmptyString => s
      | String c1 s2 =>
        if utf8.is2 c0 c1
        then (if IsSpace (utf8.rune2 c0 c1) then TrimLeftSpace s2 else s)
        else
          match s2 with
          | EmptyString => s
          | String c2 s3 =>
            if utf8.is3 c0 c1 c2 && IsSpace (utf8.rune3 c0 c1 c2)
            then TrimLeftSpace s3 else s
          end
      end
  end.

(** The same from the end, on the reversed string: [utf8.DecodeLastRune]
    steps back to the byte that starts the last rune. *)
Fixpoint trimLeftSpaceRev (s : string) : string :=
  match s with
  | EmptyString => EmptyString
  | String c0 s1 =>
    if byteZ c0 <? utf8.RuneSelf
    then (if IsSpace (byteZ c0) then trimLeftSpaceRev s1 else s)
    else
      match s1 with
      | EmptyString => s
      | String c1 s2 =>
        if utf8.is2 c1 c0
        then (if IsSpace (utf8.rune2 c1 c0) then trimLeftSpaceRev s2 else s)
        else
          match s2 with
          | EmptyString => s
          | String c2 s3 =>
            if utf8.is3 c2 c1 c0 && IsSpace (utf8.rune3 c2 c1 c0)
            then trimLeftSpaceRev s3 else s
          end
      end
  end.

Definition TrimRightSpace (s : string) : string :=
  srev (trimLeftSpaceRev (srev s)).

Definition TrimSpace (s : string) : string :=
  TrimRightSpace (TrimLeftSpace s).

(** ** [strconv.Atoi] on a 64-bit platform *)

Definition isDigit (c : ascii) : bool :=
  (byteZ "0" <=? byteZ c) && (byteZ c <=? byteZ "9").

Fixpoint digitsValue (acc : Z) (s : string) : option Z :=
  match s with
  | EmptyString => Some acc
  | String c s' =>
    if isDigit c then digitsValue (acc * 10 + (byteZ c - byteZ "0")) s'
    else None
  end.

Definition minInt : Z := - 2 ^ 63.
Definition maxInt : Z := 2 ^ 63 - 1.

(** An optional sign, then one or more decimal digits, and the value has to
    fit [int]; [None] stands for the returned error. *)
Definition Atoi (s : string) : option Z :=
  let '(neg, ds) :=
    match s with
    | String "-" s' => (true, s')
    | String "+" s' => (false, s')
    | _ => (false, s)
    end in
  match ds with
  | EmptyString => None
  | _ =>
    match digitsValue 0 ds with
    | None => None
    | Some v =>
      let n := if neg then - v else v in
      if (minInt <=? n) && (n <=? maxInt) then Some n else None
    end
  end.

(** The conversion [uint(n)] of an [int]. *)
Definition uint (n : Z) : Z := n mod 2 ^ 64.

(** ** [splitSelectFields] *)

Record splitState : Type := mkSplit {
  sFields : list string;
  sCur : string;
  sDepth : Z
}.

(** [cur.WriteRune(r)] with the depth the [switch] left. *)
Definition writeRune (st : splitState) (r : Z) (depth : Z) : splitState :=
  mkSplit (sFields st) (sCur st ++ utf8.AppendRune r) depth.

(** One iteration of the loop over the runes of the argument. *)
Definition splitStep (st : splitState) (r : Z) : splitState :=
  if r =? rune "," then
    if sDepth st =? 0
    then mkSplit (sFields st ++ [sCur st]) EmptyString (sDepth st)
    else writeRune st r (sDepth st)
  else if r =? rune "(" then writeRune st r (sDepth st + 1)
  else if r =? rune ")" then
    writeRune st r (if 0 <? sDepth st then sDepth st - 1 else sDepth st)
  else writeRune st r (sDepth st).

Definition splitInit : splitState := mkSplit [] EmptyString 0.

Definition splitFinish (st : splitState) : list string :=
  if (0 <? String.length (sCur st))%nat
  then sFields st ++ [sCur st]
  else sFields st.

Definition splitSelectFields (s : string) : list string :=
  splitFinish (fold_left splitStep (utf8.runes s) splitInit).

(** ** The two regular expressions

    [\w] is [[0-9A-Za-z_]]; [.] is any byte but a line feed (no [s] flag);
    [$] is the end of the text (no [m] flag). *)

Definition isWord (c : ascii) : bool :=
  let b := byteZ c in
  ((byteZ "0" <=? b) && (b <=? byteZ "9"))
  || ((byteZ "A" <=? b) && (b <=? byteZ "Z"))
  || ((byteZ "a" <=? b) && (b <=? byteZ "z"))
  || (b =? byteZ "_").

Definition lineFeed : ascii := ascii_of_nat 10.

(** The longest prefix of word bytes, and what follows it. *)
Fixpoint spanWord (s : string) : string * string :=
  match s with
  | EmptyString => (EmptyString, EmptyString)
  | String c s' =>
    if isWord c
    then let (w, rest) := spanWord s' in (String c w, rest)
    else (EmptyString, s)
  end.

Fixpoint noLineFeed (s : string) : bool :=
  match s with
  | EmptyString => true
  | String c s' => negb (Ascii.eqb c lineFeed) && noLineFeed s'
  end.

(** [s] without its last byte when that byte is [c]. *)
Fixpoint chopLast (s : string) (c : ascii) : option string :=
  match s with
  | EmptyString => None
  | String a EmptyString =>
    if Ascii.eqb a c then Some EmptyString else None
  | String a s' => option_map (String a) (chopLast s' c)
  end.

(** [FindStringSubmatch(f)] for the embed pattern (start of text, a group
    of one or more [\w], an opening parenthesis, a group of any number of
    [.], a closing parenthesis, end of text): the two submatches [m[1]]
    and [m[2]], or [None] when [f] does not match.  The
    word run has to stop at the opening parenthesis, so it is the longest
    one, and the greedy [.*] has to reach the closing parenthesis that ends
    the text. *)
Definition matchEmbed (f : string) : option (string * string) :=
  match spanWord f with
  | (String w0 w', String "(" body) =>
    match chopLast body ")" with
    | Some mid =>
      if noLineFeed mid then Some (String w0 w', mid) else None
    | None => None
    end
  | _ => None
  end.

(** [FindStringSubmatch(f)] for the prefix pattern (start of text, a group
    of one or more [\w], an opening parenthesis): [m[1]]. *)
Definition matchEmbedName (f : string) : option string :=
  match spanWord f with
  | (String w0 w', String "(" _) => Some (String w0 w')
  | _ => None
  end.

(** ** [singularize] *)

Definition singularize (name : string) : string :=
  if HasSuffix name "ies" then TrimSuffix name "ies" ++ "y"
  else if HasSuffix name "s" then TrimSuffix name "s"
  else name.

(** ** The schema lookup *)

(** What [db.QueryRow(ctx, sql, args...).Scan(&exists)] gives: an error or
    the scanned boolean. *)
Inductive ScanResult : Type :=
| ScanError
| Scanned (exists_ : bool).

(** The [Querier] interface: the statement and its arguments decide the
    row. *)
Definition Querier : Type := string -> list string -> ScanResult.

Definition tab : string := str1 (ascii_of_nat 9).
Definition nl : string := str1 lineFeed.

Definition columnExistsSQL : string :=
  nl ++ tab ++ tab ++ "SELECT EXISTS (" ++
  nl ++ tab ++ tab ++ tab ++ "SELECT 1 FROM information_schema.columns " ++
  nl ++ tab ++ tab ++ tab ++ "WHERE table_name = $1 AND column_name = $2" ++
  nl ++ tab ++ tab ++ ")" ++
  nl ++ tab.

Definition columnExists (db : Querier) (table column : string) : bool :=
  match db columnExistsSQL [table; column] with
  | ScanError => false  (* "If there's an error, assume column doesn't exist" *)
  | Scanned exists_ => exists_
  end.

(** ** The goqu dataset, as the clauses the builder calls record *)

Inductive SelectExpr : Type :=
| SelString (s : string)          (* a plain string argument, [Select("*")] *)
| SelL (sql : string)             (* [goqu.L(sql)]: literal SQL text *)
| SelC (col : string)             (* [goqu.C(col)]: a column identifier *)
| SelTCol (table col : string)    (* [goqu.T(table).Col(col)] *)
| SelTAll (table : string).       (* [goqu.T(table).All()] *)

Inductive WhereExpr : Type :=
| WEq (col v : string)
| WGt (col v : string)
| WLt (col v : string)
| WGte (col v : string)
| WLte (col v : string)
| WLike (col v : string)
| WIn (col : string) (values : list string).

Inductive OrderExpr : Type :=
| Asc (col : string)
| Desc (col : string).

(** [LeftJoin(goqu.T(t), goqu.On(goqu.T(lt).Col(lc).Eq(goqu.T(rt).Col(rc))))] *)
Record JoinClause : Type := mkJoinClause {
  jcTable : string;
  jcLeft : string * string;
  jcRight : string * string
}.

Record SelectDataset : Type := mkDataset {
  dFrom : string;
  dSelect : list SelectExpr;
  dWhere : list WhereExpr;       (* conjunction, in the order added *)
  dJoins : list JoinClause;
  dOrder : option OrderExpr;
  dLimit : option Z;             (* the limit clause, [None] when there is none *)
  dOffset : option Z             (* the [uint] handed to [Offset] *)
}.

Definition From (table : string) : SelectDataset :=
  mkDataset table [] [] [] None None None.

Definition Select (q : SelectDataset) (cols : list SelectExpr) : SelectDataset :=
  mkDataset (dFrom q) cols (dWhere q) (dJoins q) (dOrder q) (dLimit q) (dOffset q).

Definition SelectAppend (q : SelectDataset) (col : SelectExpr) : SelectDataset :=
  mkDataset (dFrom q) (dSelect q ++ [col]) (dWhere q) (dJoins q) (dOrder q)
            (dLimit q) (dOffset q).

Definition Where (q : SelectDataset) (e : WhereExpr) : SelectDataset :=
  mkDataset (dFrom q) (dSelect q) (dWhere q ++ [e]) (dJoins q) (dOrder q)
            (dLimit q) (dOffset q).

Definition LeftJoin (q : SelectDataset) (j : JoinClause) : SelectDataset :=
  mkDataset (dFrom q) (dSelect q) (dWhere q) (dJoins q ++ [j]) (dOrder q)
            (dLimit q) (dOffset q).

Definition Order (q : SelectDataset) (o : OrderExpr) : SelectDataset :=
  mkDataset (dFrom q) (dSelect q) (dWhere q) (dJoins q) (Some o)
            (dLimit q) (dOffset q).

(** goqu's [Limit(limit uint)] sets the limit when [limit > 0] and clears
    the clause otherwise. *)
Definition Limit (q : SelectDataset) (n : Z) : SelectDataset :=
  mkDataset (dFrom q) (dSelect q) (dWhere q) (dJoins q) (dOrder q)
            (if 0 <? n then Some n else None) (dOffset q).

(** goqu's [Offset(offset uint)] stores the number it is given. *)
Definition Offset (q : SelectDataset) (n : Z) : SelectDataset :=
  mkDataset (dFrom q) (dSelect q) (dWhere q) (dJoins q) (dOrder q)
            (dLimit q) (Some n).

(** ** [url.Values]

    Every key of [r.URL.Query()] carries at least one value, so an entry is
    a key with its first value and the further ones. *)
Module url.
Definition Values : Type := list (string * (string * list string)).
End url.

Fixpoint lookup (params : url.Values) (key : string) : option (string * list string) :=
  match params with
  | [] => None
  | (k, vs) :: rest => if String.eqb k key then Some vs else lookup rest key
  end.

(** [params.Get(key)]: the first value of the key, or the empty string. *)
Definition Get (params : url.Values) (key : string) : string :=
  match lookup params key with
  | Some (v, _) => v
  | None => EmptyString
  end.

(** ** [BuildQuery]: the select list *)

Definition manyToOneSub (relTable table manyToOneFK : string) : string :=
  "(SELECT row_to_json(" ++ relTable ++ ".*) FROM " ++ relTable
  ++ " WHERE " ++ relTable ++ ".id = " ++ table ++ "." ++ manyToOneFK
  ++ " LIMIT 1) AS " ++ relTable.

Definition oneToManySub (colList relTable oneToManyFK table : string) : string :=
  "(SELECT COALESCE(json_agg(row_to_json(arr)), '[]'::json) FROM (SELECT "
  ++ colList ++ " FROM " ++ relTable ++ " WHERE " ++ relTable ++ "."
  ++ oneToManyFK ++ " = " ++ table ++ ".id) arr) AS " ++ relTable.

(** The child columns of an embed: the text between the parentheses cut at
    every comma, each piece trimmed. *)
Definition embedCols (colsStr : string) : list string :=
  if String.eqb colsStr EmptyString then []
  else map TrimSpace (Split colsStr ",").

Definition embedColList (cols : list string) : string :=
  match cols with
  | [] => "*"
  | _ => Join cols ","
  end.

(** The subquery of a field that matched the embed pattern. *)
Definition embedSub (db : Querier) (table relTable colsStr : string) : string :=
  let cols := embedCols colsStr in
  let mainSingular := singularize table in
  let relSingular := singularize relTable in
  let manyToOneFK := relSingular ++ "_" ++ "id" in
  let oneToManyFK := mainSingular ++ "_" ++ "id" in
  let colList := embedColList cols in
  let isManyToOne := columnExists db table manyToOneFK in
  if isManyToOne
  then manyToOneSub relTable table manyToOneFK
  else oneToManySub colList relTable oneToManyFK table.

(** The body of the loop over the select fields, for the trimmed field. *)
Definition selectField (db : Querier) (table f : string) : SelectExpr :=
  if Contains f "(" && Contains f ")" then
    match matchEmbed f with
    | Some (relTable, colsStr) => SelL (embedSub db table relTable colsStr)
    | None => SelC f
    end
  else SelC f.

Definition selectCols (db : Querier) (table s : string) : list SelectExpr :=
  map (fun f => selectField db table (TrimSpace f)) (splitSelectFields s).

Definition applySelect (db : Querier) (table : string) (params : url.Values)
    (query : SelectDataset) : SelectDataset :=
  let s := Get params "select" in
  if negb (String.eqb s EmptyString) then
    match selectCols db table s with
    | [] => Select query [SelString "*"]
    | cols => Select query cols
    end
  else Select query [SelString "*"].

(** ** [BuildQuery]: the filters of the main table *)

Definition isReserved (key : string) : bool :=
  String.eqb key "select" || String.eqb key "order"
  || String.eqb key "limit" || String.eqb key "offset".

Definition isRelatedResource (key : string) (params : url.Values) : bool :=
  existsb (fun kv => HasPrefix (fst kv) (key ++ ".")) params.

(** The [switch op]: the predicate an operator adds, none for any other
    operator. *)
Definition filterExpr (key op v : string) : option WhereExpr :=
  if String.eqb op "eq" then Some (WEq key v)
  else if String.eqb op "gt" then Some (WGt key v)
  else if String.eqb op "lt" then Some (WLt key v)
  else if String.eqb op "gte" then Some (WGte key v)
  else if String.eqb op "lte" then Some (WLte key v)
  else if String.eqb op "like" then Some (WLike key v)
  else if String.eqb op "in" then Some (WIn key (Split v ","))
  else None.

(** The body of the loop over the parameters: the predicate the entry
    adds, [None] where the body leaves the query as it is ([continue], or
    an operator the [switch] has no case for). *)
Definition paramFilter (params : url.Values)
    (kv : string * (string * list string)) : option WhereExpr :=
  let '(key, (v0, _)) := kv in
  if isReserved key || Contains key "." then None
  else if Contains key "(" || isRelatedResource key params then None
  else
    match SplitN2 v0 "." with
    | [op; v] => filterExpr key op v
    | _ => None
    end.

Definition whereStep (params : url.Values) (query : SelectDataset)
    (kv : string * (string * list string)) : SelectDataset :=
  match paramFilter params kv with
  | Some e => Where query e
  | None => query
  end.

Definition applyWhere (params : url.Values) (query : SelectDataset) : SelectDataset :=
  fold_left (whereStep params) params query.

(** ** [BuildQuery]: the flat joins *)

(** The fields of [JoinConfig] that are ever assigned. *)
Record JoinConfig : Type := mkJoin {
  Table : string;
  OnLeft : string;
  OnRight : string;
  Columns : list string
}.

Definition filterOperators (op : string) : bool :=
  String.eqb op "eq" || String.eqb op "gt" || String.eqb op "lt"
  || String.eqb op "gte" || String.eqb op "lte" || String.eqb op "like"
  || String.eqb op "in".

(** The keys of the map [extractEmbeddedRelations] returns. *)
Definition extractEmbeddedRelations (selectStr : string) : list string :=
  if String.eqb selectStr EmptyString then []
  else
    fold_left
      (fun (embedded : list string) f0 =>
         let f := TrimSpace f0 in
         if Contains f "(" && Contains f ")" then
           match matchEmbedName f with
           | Some name => (embedded ++ [name])%list
           | None => embedded
           end
         else embedded)
      (splitSelectFields selectStr) [].

Definition parseParenthesesJoin (param : string) : option JoinConfig :=
  match matchEmbed param with
  | None => None
  | Some (tableName, columnStr) =>
    let cols :=
      if negb (String.eqb columnStr EmptyString)
      then map TrimSpace (Split columnStr ",") else [] in
    Some (mkJoin tableName (tableName ++ "_id") "id" cols)
  end.

(** The second test of the loop body of [parseJoins]: a key written
    [table(col,...)] whose table is not embedded by [select]. *)
Definition parenthesesJoin (embeddedRelations : list string) (key : string)
    (joins : list JoinConfig) : list JoinConfig :=
  if Contains key "(" && Contains key ")" then
    let relName := hd EmptyString (SplitN2 key "(") in
    if negb (existsb (String.eqb relName) embeddedRelations) then
      match parseParenthesesJoin key with
      | Some join => joins ++ [join]
      | None => joins
      end
    else joins
  else joins.

Definition parseJoinsStep (params : url.Values) (embeddedRelations : list string)
    (joins : list JoinConfig) (kv : string * (string * list string))
    : list JoinConfig :=
  let '(key, (v0, _)) := kv in
  if Contains key "." || isReserved key then joins
  else if Contains v0 "." && negb (Contains v0 "=") then
    match SplitN2 v0 "." with
    | [p0; p1] =>
      if filterOperators p0 then joins
      else
        let cols :=
          match lookup params (key ++ ".select") with
          | Some (selectVal, _) => Split selectVal ","
          | None => []
          end in
        parenthesesJoin embeddedRelations key (joins ++ [mkJoin key p0 p1 cols])
    | _ => parenthesesJoin embeddedRelations key joins
    end
  else parenthesesJoin embeddedRelations key joins.

Definition parseJoins (params : url.Values) (mainTable : string) : list JoinConfig :=
  let embeddedRelations := extractEmbeddedRelations (Get params "select") in
  fold_left (parseJoinsStep params embeddedRelations) params [].

Definition applyJoin (query : SelectDataset) (join : JoinConfig)
    (mainTable : string) : SelectDataset :=
  let query :=
    LeftJoin query
      (mkJoinClause (Table join) (mainTable, OnLeft join)
                    (Table join, OnRight join)) in
  match Columns join with
  | [] => SelectAppend query (SelTAll (Table join))
  | cols =>
    fold_left
      (fun q col => SelectAppend q (SelTCol (Table join) (TrimSpace col)))
      cols query
  end.

(** ** [BuildQuery]: order and page *)

Definition applyOrder (params : url.Values) (query : SelectDataset) : SelectDataset :=
  let order := Get params "order" in
  if negb (String.eqb order EmptyString) then
    match SplitN2 order "." with
    | col :: dir :: _ =>
      if String.eqb dir "desc" then Order query (Desc col)
      else Order query (Asc col)
    | col :: [] => Order query (Asc col)
    | [] => query
    end
  else query.

Definition applyLimit (params : url.Values) (query : SelectDataset) : SelectDataset :=
  let limit := Get params "limit" in
  if negb (String.eqb limit EmptyString) then
    match Atoi limit with
    | Some n => Limit query (uint n)
    | None => query
    end
  else query.

Definition applyOffset (params : url.Values) (query : SelectDataset) : SelectDataset :=
  let offset := Get params "offset" in
  if negb (String.eqb offset EmptyString) then
    match Atoi offset with
    | Some n => Offset query (uint n)
    | None => query
    end
  else query.

(** ** [BuildQuery]

    [BuildDataset] is the function up to the call of [ToSQL]. *)
Definition BuildDataset (db : Querier) (table : string) (params : url.Values)
    : SelectDataset :=
  let query := From table in
  let query := applySelect db table params query in
  let query := applyWhere params query in
  let joins := parseJoins params table in
  let query := fold_left (fun q join => applyJoin q join table) joins query in
  let query := applyOrder params query in
  let query := applyLimit params query in
  applyOffset params query.

(** ** The catalog lookups of [BuildQuery]

    [BuildQuery] calls [columnExists], and so [db.QueryRow], once for every
    select field that matches the embed pattern, in the order of the
    fields, and nowhere else. *)

(** The statement and arguments of the lookup the loop body makes for the
    trimmed field [f], if it makes one. *)
Definition fieldLookup (table f : string) : list (string * list string) :=
  if Contains f "(" && Contains f ")" then
    match matchEmbed f with
    | Some (relTable, _) =>
      [(columnExistsSQL, [table; singularize relTable ++ "_" ++ "id"])]
    | None => []
    end
  else [].

Definition BuildQueryLookups (table : string) (params : url.Values)
    : list (string * list string) :=
  let s := Get params "select" in
  if negb (String.eqb s EmptyString)
  then flat_map (fun f => fieldLookup table (TrimSpace f)) (splitSelectFields s)
  else [].

(** ** Rendering and the handler *)

Record SQLQuery : Type := mkSQLQuery {
  Query : string;
  Values : list string
}.

(** The specification's interface returns a compiled query or one of these
    errors. *)
Inductive CompileError : Type :=
| ParseError
| UnresolvableRelationship
| UnsupportedOperator
| InvalidPagination
| IdentifierRejected.

(** [BuildQuery] returns a bare [SQLQuery] and has no error result: read
    through the specification's interface, every call is a compiled
    query. *)
Definition Compile (db : Querier) (table : string) (params : url.Values)
    : CompileError + SelectDataset :=
  inr (BuildDataset db table params).

Definition dquote : string := str1 (ascii_of_nat 34).

(** The statement [HandleSelect] formats from the tenant header. *)
Definition searchPathSQL (tenants : string) : string :=
  "SET LOCAL search_path TO " ++ dquote ++ tenants ++ dquote.

Section Handler.

(** goqu's [ToSQL] and the rows of a result are not part of the
    repository. *)
Variable ToSQL : SelectDataset -> SQLQuery.
Variable RowMap : Type.

Definition BuildQuery (db : Querier) (table : string) (params : url.Values)
    : SQLQuery :=
  ToSQL (BuildDataset db table params).

(** A transaction: whether [Exec] of a statement succeeds, the row a
    [QueryRow] scans, and the error text or the rows of [Query], a row
    being [None] when its [Scan] fails. *)
Record Tx : Type := mkTx {
  txExec : string -> bool;
  txQueryRow : Querier;
  txQuery : SQLQuery -> string + list (option RowMap)
}.

(** What the handler sends to the database, in order. *)
Inductive DbCall : Type :=
| CallExec (sql : string)
| CallQueryRow (sql : string) (args : list string)
| CallQuery (q : SQLQuery)
| CallCommit
| CallRollback.

(** The [QueryRow] calls [BuildQuery] makes on the transaction it is
    given. *)
Definition lookupCalls (table : string) (params : url.Values) : list DbCall :=
  map (fun c => CallQueryRow (fst c) (snd c)) (BuildQueryLookups table params).

Inductive Body : Type :=
| ErrorText (msg : string)
| Results (rows : list RowMap).

Record Response : Type := mkResponse {
  status : Z;
  body : Body
}.

Record Request : Type := mkRequest {
  urlTable : string;        (* [chi.URLParam(r, "table")] *)
  tenantHeader : string;    (* [r.Header.Get("X-Tenant-ID")] *)
  urlQuery : url.Values         (* [r.URL.Query()] *)
}.

Definition StatusOK : Z := 200.
Definition StatusBadRequest : Z := 400.
Definition StatusInternalServerError : Z := 500.

(** The rows whose [Scan] succeeded. *)
Fixpoint scanned (rows : list (option RowMap)) : list RowMap :=
  match rows with
  | [] => []
  | Some r :: rest => r :: scanned rest
  | None :: rest => scanned rest
  end.

(** [HandleSelect], [begin] being what [DB.Begin] returns ([None] for an
    error): the response and the calls made on the transaction, those of
    [BuildQuery] between the [SET LOCAL] statement and the query, the
    deferred [Rollback] last. *)
Definition HandleSelect (begin : option Tx) (r : Request)
    : Response * list DbCall :=
  let table := urlTable r in
  let tenants := tenantHeader r in
  if String.eqb tenants EmptyString then
    (mkResponse StatusBadRequest (ErrorText "Missing X-Tenant-ID header"), [])
  else
    match begin with
    | None =>
      (mkResponse StatusInternalServerError
                  (ErrorText "Failed to start transaction"), [])
    | Some tx =>
      let setPath := CallExec (searchPathSQL tenants) in
      if negb (txExec tx (searchPathSQL tenants)) then
        (mkResponse StatusInternalServerError
                    (ErrorText "Failed to set tenant context"),
         [setPath; CallRollback])
      else
        let sql := BuildQuery (txQueryRow tx) table (urlQuery r) in
        let lookups := lookupCalls table (urlQuery r) in
        match txQuery tx sql with
        | inl err =>
          (mkResponse StatusInternalServerError
                      (ErrorText ("Query execution failed: " ++ err)),
           (setPath :: lookups ++ [CallQuery sql; CallRollback])%list)
        | inr rows =>
          (mkResponse StatusOK (Results (scanned rows)),
           (setPath :: lookups ++ [CallQuery sql; CallCommit; CallRollback])%list)
        end
    end.

End Handler.

Arguments ErrorText {RowMap} msg.
Arguments Results {RowMap} rows.
Arguments mkResponse {RowMap} status body.
Arguments mkTx {RowMap} txExec txQueryRow txQuery.
Arguments txExec {RowMap} t sql.
Arguments txQueryRow {RowMap} t.
Arguments txQuery {RowMap} t q.
Arguments HandleSelect ToSQL {RowMap} begin r.
Arguments status {RowMap} r.
Arguments body {RowMap} r.

(** The predicates the loop over the parameters collects from the entries
    [l], in order. *)
Definition mainFilters (params l : url.Values) : list WhereExpr :=
  flat_map (fun kv => match paramFilter params kv with
                      | Some e => [e]
                      | None => []
                      end) l.

(** ** Notions the statements use *)

(** The query as it stands when the page parameters are reached. *)
Definition beforePage (db : Querier) (table : string) (params : url.Values)
    : SelectDataset :=
  applyOrder params
    (fold_left (fun q join => applyJoin q join table) (parseJoins params table)
       (applyWhere params (applySelect db table params (From table)))).

(** Every byte of [s] satisfies [p]. *)
Fixpoint allb (p : ascii -> bool) (s : string) : bool :=
  match s with
  | EmptyString => true
  | String c s' => p c && allb p s'
  end.

(** The singular form in the specification's words: a trailing "ies"
    becomes "y"; otherwise a trailing "s" is stripped; otherwise the name
    stays. *)
Inductive Singular : string -> string -> Prop :=
| Singular_ies p :
    Singular (p ++ "ies") (p ++ "y")
| Singular_s p :
    (forall q, p ++ "s" <> q ++ "ies") -> Singular (p ++ "s") p
| Singular_other name :
    (forall q, name <> q ++ "s") -> Singular name name.

(** The strictest check the code itself ever applies to a name: one or more
    of [[0-9A-Za-z_]], the [\w+] of the embed pattern. *)
Definition validIdent (s : string) : bool :=
  negb (String.eqb s EmptyString) && allb isWord s.

(** [splitStep] with the bytes it writes as a parameter. *)
Definition splitStepWith (st : splitState) (r : Z) (w : string) : splitState :=
  if r =? rune "," then
    if sDepth st =? 0
    then mkSplit (sFields st ++ [sCur st]) EmptyString (sDepth st)
    else mkSplit (sFields st) (sCur st ++ w) (sDepth st)
  else if r =? rune "(" then mkSplit (sFields st) (sCur st ++ w) (sDepth st + 1)
  else if r =? rune ")" then
    mkSplit (sFields st) (sCur st ++ w)
            (if 0 <? sDepth st then sDepth st - 1 else sDepth st)
  else mkSplit (sFields st) (sCur st ++ w) (sDepth st).

(** The loop body on one byte, compared and written as it is. *)
Definition byteStep (st : splitState) (c : ascii) : splitState :=
  splitStepWith st (byteZ c) (str1 c).

(** The loop run over the bytes of the string instead of its runes. *)
Fixpoint splitBytes (s : string) (st : splitState) : splitState :=
  match s with
  | EmptyString => st
  | String c s' => splitBytes s' (byteStep st c)
  end.

(** A byte of a multi-byte sequence. *)
Definition highByte (c : ascii) : bool := 128 <=? byteZ c.

(** The parenthesis depth after the byte [c], as the loop counts it. *)
Definition nextDepth (d : Z) (c : ascii) : Z :=
  if Ascii.eqb c "(" then d + 1
  else if Ascii.eqb c ")" then (if 0 <? d then d - 1 else d)
  else d.

(** [s], read from depth [d] on, ends with a comma at parenthesis depth
    zero. *)
Fixpoint endsAtTopComma (d : Z) (s : string) : bool :=
  match s with
  | EmptyString => false
  | String c EmptyString => Ascii.eqb c "," && (d =? 0)
  | String c s' => endsAtTopComma (nextDepth d c) s'
  end.

(** The text the state stands for: the fields closed so far and the open
    one, separated by commas. *)
Definition flat (st : splitState) : string :=
  Join (sFields st ++ [sCur st]) ",".

(** The clause [applyJoin] hands to [LeftJoin] for a join. *)
Definition joinClause (mainTable : string) (join : JoinConfig) : JoinClause :=
  mkJoinClause (Table join) (mainTable, OnLeft join) (Table join, OnRight join).

(** The columns [applyJoin] appends to the select list for a join. *)
Definition joinColumns (join : JoinConfig) : list SelectExpr :=
  match Columns join with
  | [] => [SelTAll (Table join)]
  | cols => map (fun col => SelTCol (Table join) (TrimSpace col)) cols
  end.

(** The column a predicate is about. *)
Definition whereColumn (e : WhereExpr) : string :=
  match e with
  | WEq col _ | WGt col _ | WLt col _ | WGte col _ | WLte col _
  | WLike col _ | WIn col _ => col
  end.

(** The body of the loop of [extractEmbeddedRelations]. *)
Definition registerEmbed (embedded : list string) (f0 : string) : list string :=
  let f := TrimSpace f0 in
  if Contains f "(" && Contains f ")" then
    match matchEmbedName f with
    | Some name => (embedded ++ [name])%list
    | None => embedded
    end
  else embedded.

(** The loop of [splitSelectFields] has closed a field or holds a
    non-empty one. *)
Definition started (st : splitState) : Prop :=
  sFields st <> [] \/ sCur st <> EmptyString.

(** Reading [s] from depth [d] on meets no comma at depth zero; the depth
    at its end. *)
Fixpoint scanField (d : Z) (s : string) : option Z :=
  match s with
  | EmptyString => Some d
  | String c s' =>
    if Ascii.eqb c "," && (d =? 0) then None
    else scanField (nextDepth d c) s'
  end.

(** Every closed field reads from depth zero back to depth zero without a
    comma at depth zero, and the open one reads to the current depth. *)
Definition fieldsScanned (st : splitState) : Prop :=
  Forall (fun f => scanField 0 f = Some 0) (sFields st)
  /\ scanField 0 (sCur st) = Some (sDepth st).

(** The parenthesis depth after [s], read from depth [d] on. *)
Fixpoint depthAfter (d : Z) (s : string) : Z :=
  match s with
  | EmptyString => d
  | String c s' => depthAfter (nextDepth d c) s'
  end.

(** An ASCII white-space byte, and an ASCII byte that is none. *)
Definition asciiSpace (c : ascii) : bool :=
  (byteZ c <? utf8.RuneSelf) && IsSpace (byteZ c).

Definition solidByte (c : ascii) : bool :=
  (byteZ c <? utf8.RuneSelf) && negb (IsSpace (byteZ c)).

(** [s] begins with an ASCII byte that is no white space. *)
Definition startsSolid (s : string) : bool :=
  match s with
  | EmptyString => false
  | String c _ => solidByte c
  end.

(** ** Collaborators and inputs of the examples *)

(** A catalog without the columns asked for, and one whose lookups fail. *)
Definition noColumns : Querier := fun _ _ => Scanned false.

Definition failingLookup : Querier := fun _ _ => ScanError.

(** A schema in which [movies] has the column [director_id]. *)
Definition moviesSchema : Querier :=
  fun _ args =>
    match args with
    | [t; c] => Scanned (String.eqb t "movies" && String.eqb c "director_id")
    | _ => ScanError
    end.

(** A child column list and a tenant header that are no identifiers. *)
Definition injectedCols : string := "id; DROP TABLE posts".

Definition injectedTenant : string :=
  "public" ++ dquote ++ "; DROP SCHEMA public CASCADE; --".

(** The one-byte string 0xFF, as [select=%FF] delivers it. *)
Definition invalidByte : string := str1 (ascii_of_nat 255).

(** A rendering and a transaction on which every call succeeds. *)
Definition noRendering : SelectDataset -> SQLQuery :=
  fun _ => mkSQLQuery EmptyString [].

Definition acceptingTx : Tx unit :=
  mkTx (fun _ => true) noColumns (fun _ => inr []).

(** A request with an embed: authors with their posts. *)
Definition embedRequest : Request :=
  mkRequest "authors" "public" [("select", ("id,posts(id, content)", []))].

(** * Properties *)

(** ** Which clause each stage of [BuildQuery] touches *)

Section Frames.

Variable db : Querier.
Variable table : string.
Variable params : url.Values.

Lemma whereStep_clauses q kv :
  dLimit (whereStep params q kv) = dLimit q
  /\ dOffset (whereStep params q kv) = dOffset q
  /\ dSelect (whereStep params q kv) = dSelect q.
Proof.
  unfold whereStep. destruct (paramFilter params kv); auto.
Qed.

Lemma fold_whereStep_clauses l : forall q,
  dLimit (fold_left (whereStep params) l q) = dLimit q
  /\ dOffset (fold_left (whereStep params) l q) = dOffset q
  /\ dSelect (fold_left (whereStep params) l q) = dSelect q.
Proof.
  induction l as [|kv l IH]; intros q; simpl; auto.
  destruct (IH (whereStep params q kv)) as (H1 & H2 & H3).
  destruct (whereStep_clauses q kv) as (G1 & G2 & G3).
  rewrite H1, H2, H3. auto.
Qed.

Lemma fold_whereStep_where l : forall q,
  dWhere (fold_left (whereStep params) l q) = (dWhere q ++ mainFilters params l)%list.
Proof.
  induction l as [|kv l IH]; intros q; simpl.
  - now rewrite app_nil_r.
  - rewrite IH. unfold whereStep.
    destruct (paramFilter params kv); simpl.
    + now rewrite <- app_assoc.
    + reflexivity.
Qed.

Lemma fold_SelectAppend_clauses (mk : string -> SelectExpr) cols : forall q,
  dWhere (fold_left (fun q col => SelectAppend q (mk col)) cols q) = dWhere q
  /\ dLimit (fold_left (fun q col => SelectAppend q (mk col)) cols q) = dLimit q
  /\ dOffset (fold_left (fun q col => SelectAppend q (mk col)) cols q) = dOffset q.
Proof.
  induction cols as [|c cols IH]; intros q; simpl; auto.
  destruct (IH (SelectAppend q (mk c))) as (H1 & H2 & H3).
  rewrite H1, H2, H3. auto.
Qed.

Lemma applyJoin_clauses q join :
  dWhere (applyJoin q join table) = dWhere q
  /\ dLimit (applyJoin q join table) = dLimit q
  /\ dOffset (applyJoin q join table) = dOffset q.
Proof.
  unfold applyJoin. destruct (Columns join) as [|c cols]; [simpl; auto|].
  destruct (fold_SelectAppend_clauses
              (fun col => SelTCol (Table join) (TrimSpace col)) (c :: cols)
              (LeftJoin q (mkJoinClause (Table join) (table, OnLeft join)
                                        (Table join, OnRight join))))
    as (H1 & H2 & H3).
  rewrite H1, H2, H3. auto.
Qed.

Lemma fold_applyJoin_clauses joins : forall q,
  dWhere (fold_left (fun q join => applyJoin q join table) joins q) = dWhere q
  /\ dLimit (fold_left (fun q join => applyJoin q join table) joins q) = dLimit q
  /\ dOffset (fold_left (fun q join => applyJoin q join table) joins q) = dOffset q.
Proof.
  induction joins as [|j joins IH]; intros q; simpl; auto.
  destruct (IH (applyJoin q j table)) as (H1 & H2 & H3).
  destruct (applyJoin_clauses q j) as (G1 & G2 & G3).
  rewrite H1, H2, H3. auto.
Qed.

Lemma applySelect_clauses q :
  dWhere (applySelect db table params q) = dWhere q
  /\ dLimit (applySelect db table params q) = dLimit q
  /\ dOffset (applySelect db table params q) = dOffset q.
Proof.
  unfold applySelect.
  destruct (negb (Get params "select" =? "")%string); auto.
  destruct (selectCols db table (Get params "select")); auto.
Qed.

Lemma applyOrder_clauses q :
  dWhere (applyOrder params q) = dWhere q
  /\ dLimit (applyOrder params q) = dLimit q
  /\ dOffset (applyOrder params q) = dOffset q.
Proof.
  unfold applyOrder.
  destruct (negb (Get params "order" =? "")%string); auto.
  destruct (SplitN2 (Get params "order") ".") as [|col [|dir rest]]; auto.
  destruct (dir =? "desc")%string; auto.
Qed.

Lemma applyLimit_clauses q :
  dWhere (applyLimit params q) = dWhere q
  /\ dOffset (applyLimit params q) = dOffset q.
Proof.
  unfold applyLimit.
  destruct (negb (Get params "limit" =? "")%string); auto.
  destruct (Atoi (Get params "limit")); auto.
Qed.

Lemma applyOffset_clauses q :
  dWhere (applyOffset params q) = dWhere q
  /\ dLimit (applyOffset params q) = dLimit q.
Proof.
  unfold applyOffset.
  destruct (negb (Get params "offset" =? "")%string); auto.
  destruct (Atoi (Get params "offset")); auto.
Qed.

Lemma BuildDataset_unfold :
  BuildDataset db table params = applyOffset params (applyLimit params (beforePage db table params)).
Proof. reflexivity. Qed.

Lemma beforePage_clauses :
  dWhere (beforePage db table params) = mainFilters params params
  /\ dLimit (beforePage db table params) = None
  /\ dOffset (beforePage db table params) = None.
Proof.
  unfold beforePage, applyWhere.
  destruct (applyOrder_clauses
    (fold_left (fun q join => applyJoin q join table) (parseJoins params table)
       (fold_left (whereStep params) params (applySelect db table params (From table)))))
    as (A1 & A2 & A3).
  destruct (fold_applyJoin_clauses (parseJoins params table)
       (fold_left (whereStep params) params (applySelect db table params (From table))))
    as (B1 & B2 & B3).
  destruct (fold_whereStep_clauses params (applySelect db table params (From table)))
    as (C1 & C2 & _).
  destruct (applySelect_clauses (From table)) as (D1 & D2 & D3).
  rewrite A1, A2, A3, B1, B2, B3, C1, C2, D2, D3.
  rewrite fold_whereStep_where, D1. auto.
Qed.

(** The [WHERE] clause of the result is what the loop over the parameters
    collected, whatever [select] holds. *)
Lemma BuildDataset_where :
  dWhere (BuildDataset db table params) = mainFilters params params.
Proof.
  rewrite BuildDataset_unfold.
  destruct (applyOffset_clauses (applyLimit params (beforePage db table params))) as (H & _).
  destruct (applyLimit_clauses (beforePage db table params)) as (G & _).
  rewrite H, G. apply beforePage_clauses.
Qed.

End Frames.

(** ** Page parameters *)

(** C7, as the code has it: a [limit] or [offset] that [Atoi] rejects sets
    no clause, and the call still yields a query. *)
Theorem non_numeric_page_parameter_ignored db table params :
  exists q, Compile db table params = inr q
    /\ (Atoi (Get params "limit") = None -> dLimit q = None)
    /\ (Atoi (Get params "offset") = None -> dOffset q = None).
Proof.
  exists (BuildDataset db table params). split; [reflexivity|].
  rewrite BuildDataset_unfold.
  destruct (beforePage_clauses db table params) as (_ & HL & HO).
  split; intros H.
  - destruct (applyOffset_clauses params (applyLimit params (beforePage db table params)))
      as (_ & G).
    rewrite G. unfold applyLimit. rewrite H.
    destruct (negb (Get params "limit" =? "")%string); exact HL.
  - unfold applyOffset. rewrite H.
    destruct (applyLimit_clauses params (beforePage db table params)) as (_ & G).
    destruct (negb (Get params "offset" =? "")%string); rewrite G; exact HO.
Qed.

Lemma non_numeric_page_parameter_ignored_witness :
  Atoi (Get [("limit", ("ten", [])); ("offset", ("abc", []))] "limit") = None
  /\ Atoi (Get [("limit", ("ten", [])); ("offset", ("abc", []))] "offset") = None
  /\ exists q,
       Compile noColumns "posts" [("limit", ("ten", [])); ("offset", ("abc", []))] = inr q
       /\ dLimit q = None /\ dOffset q = None.
Proof.
  split; [reflexivity|]. split; [reflexivity|].
  destruct (non_numeric_page_parameter_ignored noColumns "posts"
              [("limit", ("ten", [])); ("offset", ("abc", []))])
    as (q & Hq & HL & HO).
  exists q. split; [exact Hq|]. split; [apply HL | apply HO]; reflexivity.
Defined.

(** C7, as stated, fails: [limit=-1] and [offset=abc] are compiled, the one
    to the wrapped unsigned value and the other to no clause. *)
Lemma invalid_pagination_is_compiled :
  Compile noColumns "posts" [("limit", ("-1", [])); ("offset", ("abc", []))]
  = inr (mkDataset "posts" [SelString "*"] [] [] None
                   (Some 18446744073709551615) None).
Proof. vm_compute. reflexivity. Qed.

(** ** Filters *)

Lemma filterExpr_unsupported key op v :
  filterOperators op = false -> filterExpr key op v = None.
Proof.
  unfold filterOperators, filterExpr. intros H.
  repeat (apply orb_false_elim in H; destruct H as [H ?]).
  repeat match goal with E : (_ =? _)%string = false |- _ => rewrite E; clear E end.
  reflexivity.
Qed.

Lemma mainFilters_app params l1 l2 :
  mainFilters params (l1 ++ l2)%list = (mainFilters params l1 ++ mainFilters params l2)%list.
Proof. unfold mainFilters. apply flat_map_app. Qed.

(** C8, as the code has it: a parameter [key=op.value] whose operator is
    none of the seven leaves the [WHERE] clause as it would be without the
    parameter's turn in the loop, and the call still yields a query. *)
Theorem unsupported_operator_adds_no_predicate
    db table ps1 ps2 key v0 vs op v :
  SplitN2 v0 "." = [op; v] ->
  filterOperators op = false ->
  exists q,
    Compile db table (ps1 ++ (key, (v0, vs)) :: ps2)%list = inr q
    /\ dWhere q = mainFilters (ps1 ++ (key, (v0, vs)) :: ps2)%list (ps1 ++ ps2)%list.
Proof.
  intros Hsplit Hop.
  exists (BuildDataset db table (ps1 ++ (key, (v0, vs)) :: ps2)%list).
  split; [reflexivity|].
  rewrite BuildDataset_where.
  set (params := (ps1 ++ (key, (v0, vs)) :: ps2)%list).
  unfold params at 2.
  rewrite !mainFilters_app. f_equal.
  change (mainFilters params ((key, (v0, vs)) :: ps2))
    with ((match paramFilter params (key, (v0, vs)) with
           | Some e => [e]
           | None => []
           end) ++ mainFilters params ps2)%list.
  assert (paramFilter params (key, (v0, vs)) = None) as ->; [|reflexivity].
  unfold paramFilter.
  destruct (isReserved key || Contains key "."); [reflexivity|].
  destruct (Contains key "(" || isRelatedResource key params); [reflexivity|].
  rewrite Hsplit. now apply filterExpr_unsupported.
Qed.

Lemma unsupported_operator_adds_no_predicate_witness :
  SplitN2 "between.1" "." = ["between"; "1"]
  /\ filterOperators "between" = false
  /\ exists q,
       Compile noColumns "posts"
         ([("id", ("gt.3", []))] ++ ("views", ("between.1", [])) :: [])%list
       = inr q
       /\ dWhere q = [WGt "id" "3"].
Proof.
  split; [reflexivity|]. split; [reflexivity|].
  destruct (unsupported_operator_adds_no_predicate noColumns "posts"
              [("id", ("gt.3", []))] [] "views" "between.1" [] "between" "1"
              eq_refl eq_refl) as (q & Hq & Hw).
  exists q. split; [exact Hq | exact Hw].
Defined.

(** C8, as stated, fails: [views=between.1] is compiled; it adds nothing
    to [WHERE] and is read as the join [views] on [between = 1]. *)
Lemma unsupported_operator_is_compiled :
  Compile noColumns "posts" [("views", ("between.1", []))]
  = inr (mkDataset "posts" [SelString "*"; SelTAll "views"] []
                   [mkJoinClause "views" ("posts", "between") ("views", "1")]
                   None None None).
Proof. vm_compute. reflexivity. Qed.

(** ** The schema lookup *)

(** C9, as the code has it: when the lookup for the foreign key fails,
    [columnExists] answers [false] and the embed is compiled as the
    one-to-many array subquery. *)
Theorem lookup_failure_falls_back_to_one_to_many
    (db : Querier) table relTable colsStr :
  db columnExistsSQL [table; singularize relTable ++ "_id"] = ScanError ->
  columnExists db table (singularize relTable ++ "_id") = false
  /\ embedSub db table relTable colsStr
     = oneToManySub (embedColList (embedCols colsStr)) relTable
                    (singularize table ++ "_id") table.
Proof.
  intros H.
  assert (columnExists db table (singularize relTable ++ "_id") = false) as Hc.
  { unfold columnExists. now rewrite H. }
  split; [exact Hc|].
  unfold embedSub.
  change (singularize relTable ++ "_" ++ "id") with (singularize relTable ++ "_id").
  rewrite Hc. reflexivity.
Qed.

Lemma lookup_failure_falls_back_to_one_to_many_witness :
  failingLookup columnExistsSQL ["movies"; singularize "directors" ++ "_id"] = ScanError
  /\ columnExists failingLookup "movies" (singularize "directors" ++ "_id") = false
  /\ embedSub failingLookup "movies" "directors" "id,name"
     = oneToManySub (embedColList (embedCols "id,name")) "directors"
                    (singularize "movies" ++ "_id") "movies".
Proof.
  split; [reflexivity|].
  apply (lookup_failure_falls_back_to_one_to_many failingLookup
           "movies" "directors" "id,name").
  reflexivity.
Defined.

(** C9, as stated, fails: with a lookup that always fails the embed is
    compiled all the same, as a one-to-many array subquery. *)
Lemma lookup_failure_is_compiled :
  Compile failingLookup "movies" [("select", ("directors(id,name)", []))]
  = inr (mkDataset "movies"
           [SelL "(SELECT COALESCE(json_agg(row_to_json(arr)), '[]'::json) FROM (SELECT id,name FROM directors WHERE directors.movy_id = movies.id) arr) AS directors"]
           [] [] None None None).
Proof. vm_compute. reflexivity. Qed.

(** ** Strings *)

Section StringFacts.

Lemma app_empty_r (s : string) : s ++ "" = s.
Proof. induction s; simpl; congruence. Qed.

Lemma app_assoc_str (a b c : string) : (a ++ b) ++ c = a ++ b ++ c.
Proof. induction a; simpl; congruence. Qed.

Lemma length_app (a b : string) :
  String.length (a ++ b) = (String.length a + String.length b)%nat.
Proof. induction a; simpl; congruence. Qed.

Lemma substring_app_prefix (p q : string) :
  substring 0 (String.length p) (p ++ q) = p.
Proof.
  induction p as [|c p IH]; simpl.
  - now destruct q.
  - now rewrite IH.
Qed.

Lemma substring_app_suffix (p q : string) :
  substring (String.length p) (String.length q) (p ++ q) = q.
Proof.
  induction p as [|c p IH]; simpl; [|exact IH].
  induction q as [|d q IHq]; simpl; congruence.
Qed.

Lemma substring_split (s : string) : forall n,
  (n <= String.length s)%nat ->
  s = substring 0 n s ++ substring n (String.length s - n) s.
Proof.
  induction s as [|c s IH]; intros n Hn; simpl in Hn.
  - assert (n = 0%nat) as -> by lia. reflexivity.
  - destruct n as [|n].
    + simpl. f_equal.
      pose proof (substring_app_prefix s "") as H.
      rewrite app_empty_r in H. now rewrite H.
    + simpl. f_equal. apply IH. lia.
Qed.

Lemma HasSuffix_app (p suffix : string) : HasSuffix (p ++ suffix) suffix = true.
Proof.
  unfold HasSuffix. rewrite length_app.
  replace (String.length p + String.length suffix - String.length suffix)%nat
    with (String.length p) by lia.
  rewrite substring_app_suffix, String.eqb_refl, andb_true_r.
  apply Nat.leb_le. lia.
Qed.

Lemma TrimSuffix_app (p suffix : string) : TrimSuffix (p ++ suffix) suffix = p.
Proof.
  unfold TrimSuffix. rewrite HasSuffix_app, length_app.
  replace (String.length p + String.length suffix - String.length suffix)%nat
    with (String.length p) by lia.
  apply substring_app_prefix.
Qed.

Lemma HasSuffix_inv (s suffix : string) :
  HasSuffix s suffix = true -> exists p, s = p ++ suffix.
Proof.
  unfold HasSuffix. intros H. apply andb_true_iff in H as [Hlen Heq].
  apply Nat.leb_le in Hlen. apply String.eqb_eq in Heq.
  exists (substring 0 (String.length s - String.length suffix) s).
  pose proof (substring_split s (String.length s - String.length suffix)) as Hs.
  replace (String.length s - (String.length s - String.length suffix))%nat
    with (String.length suffix) in Hs by lia.
  rewrite Heq in Hs. apply Hs. lia.
Qed.

Lemma HasPrefix_app (p rest : string) : HasPrefix (p ++ rest) p = true.
Proof.
  induction p as [|c p IH]; simpl; [reflexivity|].
  now rewrite Ascii.eqb_refl, IH.
Qed.

Lemma Contains_prefix (s sub : string) :
  HasPrefix s sub = true -> Contains s sub = true.
Proof. intros H. destruct s; simpl; now rewrite H. Qed.

Lemma Contains_app (a sub rest : string) : Contains (a ++ sub ++ rest) sub = true.
Proof.
  induction a as [|c a IH]; simpl.
  - apply Contains_prefix, HasPrefix_app.
  - rewrite IH. apply orb_true_r.
Qed.

Lemma spanWord_spec (s : string) :
  s = fst (spanWord s) ++ snd (spanWord s)
  /\ allb isWord (fst (spanWord s)) = true
  /\ match snd (spanWord s) with
     | EmptyString => True
     | String c _ => isWord c = false
     end.
Proof.
  induction s as [|c s (IH1 & IH2 & IH3)]; simpl; [auto|].
  destruct (isWord c) eqn:Hc.
  - destruct (spanWord s) as [w rest]; simpl in *.
    rewrite Hc, IH2. repeat split; [congruence | exact IH3].
  - simpl. auto.
Qed.

Lemma spanWord_app (w rest : string) :
  allb isWord w = true ->
  match rest with EmptyString => True | String c _ => isWord c = false end ->
  spanWord (w ++ rest) = (w, rest).
Proof.
  intros Hw Hrest. induction w as [|c w IH]; simpl in *.
  - destruct rest as [|c rest]; simpl; [reflexivity|]. now rewrite Hrest.
  - apply andb_true_iff in Hw as [Hc Hw]. rewrite Hc, (IH Hw). reflexivity.
Qed.

Lemma chopLast_app (s : string) (c : ascii) : chopLast (s ++ str1 c) c = Some s.
Proof.
  induction s as [|a s IH]; simpl.
  - now rewrite Ascii.eqb_refl.
  - rewrite IH. destruct s; reflexivity.
Qed.

Lemma chopLast_inv (s : string) (c : ascii) : forall m,
  chopLast s c = Some m -> s = m ++ str1 c.
Proof.
  induction s as [|a s IH]; intros m H; simpl in H; [discriminate|].
  destruct s as [|b s].
  - destruct (Ascii.eqb_spec a c); [|discriminate].
    injection H as <-. now subst.
  - destruct (chopLast (String b s) c) as [m'|] eqn:E; [|discriminate].
    injection H as <-. simpl. f_equal. now apply IH.
Qed.

Lemma Split_cons s sep : exists h t, Split s sep = h :: t.
Proof.
  induction s as [|c s (h & t & E)]; simpl; [eauto|].
  destruct (Ascii.eqb c sep); [eauto|]. rewrite E. eauto.
Qed.

End StringFacts.

(** What the embed pattern matches: a non-empty run of word bytes, an
    opening parenthesis, a text without line feed, and the closing
    parenthesis that ends the field. *)
Lemma matchEmbed_app (relTable colsStr : string) :
  relTable <> EmptyString ->
  allb isWord relTable = true ->
  noLineFeed colsStr = true ->
  matchEmbed (relTable ++ "(" ++ colsStr ++ ")") = Some (relTable, colsStr).
Proof.
  intros Hne Hw Hlf. unfold matchEmbed.
  rewrite spanWord_app by (auto; reflexivity).
  destruct relTable as [|w0 w']; [congruence|].
  change ("(" ++ colsStr ++ ")") with (String "(" (colsStr ++ str1 ")")).
  cbv iota beta.
  rewrite chopLast_app, Hlf. reflexivity.
Qed.

Lemma matchEmbed_inv (f relTable colsStr : string) :
  matchEmbed f = Some (relTable, colsStr) ->
  f = relTable ++ "(" ++ colsStr ++ ")"
  /\ relTable <> EmptyString
  /\ allb isWord relTable = true
  /\ noLineFeed colsStr = true.
Proof.
  unfold matchEmbed. intros H.
  destruct (spanWord_spec f) as (Hf & Hw & _).
  destruct (spanWord f) as [w rest]; simpl in *.
  destruct w as [|w0 w']; [discriminate|].
  destruct rest as [|c body]; [discriminate|].
  destruct (Ascii.eqb_spec c "("%char) as [->|Hc].
  - destruct (chopLast body ")") as [mid|] eqn:E; [|discriminate].
    destruct (noLineFeed mid) eqn:Hlf; [|discriminate].
    injection H as <- <-.
    apply chopLast_inv in E. subst body.
    repeat split; auto. discriminate.
  - exfalso. revert H.
    destruct c as [[] [] [] [] [] [] [] []]; try discriminate.
    now elim Hc.
Qed.

Lemma selectField_embed db table f relTable colsStr :
  matchEmbed f = Some (relTable, colsStr) ->
  selectField db table f = SelL (embedSub db table relTable colsStr).
Proof.
  intros H. unfold selectField. rewrite H.
  apply matchEmbed_inv in H as (-> & _).
  rewrite (Contains_app relTable "(" (colsStr ++ ")")).
  replace (relTable ++ "(" ++ colsStr ++ ")")
    with ((relTable ++ "(" ++ colsStr) ++ ")" ++ "")
    by now rewrite !app_assoc_str.
  rewrite (Contains_app (relTable ++ "(" ++ colsStr) ")" "").
  reflexivity.
Qed.

Lemma embedSub_unfold db table relTable colsStr :
  embedSub db table relTable colsStr
  = if columnExists db table (singularize relTable ++ "_id")
    then manyToOneSub relTable table (singularize relTable ++ "_id")
    else oneToManySub (embedColList (embedCols colsStr)) relTable
                      (singularize table ++ "_id") table.
Proof. reflexivity. Qed.

(** ** The select grammar *)

(** C1 fails on the code; this is what the code does instead: a field
    [table!inner(...)] does not match the embed pattern, whose word run
    stops at the exclamation mark, and is compiled as a column of that
    whole name. *)
Theorem inner_embed_compiled_as_column db table relTable rest :
  allb isWord relTable = true ->
  matchEmbed (relTable ++ "!inner(" ++ rest) = None
  /\ selectField db table (relTable ++ "!inner(" ++ rest)
     = SelC (relTable ++ "!inner(" ++ rest).
Proof.
  intros Hw.
  assert (matchEmbed (relTable ++ "!inner(" ++ rest) = None) as Hm.
  { unfold matchEmbed. rewrite spanWord_app by (auto; reflexivity).
    destruct relTable; reflexivity. }
  split; [exact Hm|].
  unfold selectField. rewrite Hm.
  destruct (Contains _ "(" && Contains _ ")"); reflexivity.
Qed.

Lemma inner_embed_compiled_as_column_witness :
  allb isWord "posts" = true
  /\ matchEmbed "posts!inner(id,content)" = None
  /\ selectField noColumns "authors" "posts!inner(id,content)"
     = SelC "posts!inner(id,content)".
Proof.
  split; [reflexivity|].
  apply (inner_embed_compiled_as_column noColumns "authors" "posts" "id,content)").
  reflexivity.
Defined.

(** C2 fails on the code; this is the code at the failing input: the top
    level keeps [stats(id,views)] in one field, the child list of an embed is
    cut at every comma into four fragments, and the subquery lists them
    again as they were written. *)
Theorem child_list_split_at_every_comma :
  splitSelectFields "id,content,stats(id,views)" = ["id"; "content"; "stats(id,views)"]
  /\ embedCols "id,content,stats(id,views)" = ["id"; "content"; "stats(id"; "views)"]
  /\ selectCols noColumns "authors" "id,posts(id,content,stats(id,views))"
     = [SelC "id";
        SelL "(SELECT COALESCE(json_agg(row_to_json(arr)), '[]'::json) FROM (SELECT id,content,stats(id,views) FROM posts WHERE posts.author_id = authors.id) arr) AS posts"].
Proof. vm_compute. auto. Qed.

(** C3 fails on the code; this is what the code does instead: the [WHERE]
    clause never depends on [select], and the request of the repository's
    inner-join test compiles to three plain columns and no predicate. *)
Theorem inner_embed_adds_no_existence_predicate db :
  (forall table s, dWhere (BuildDataset db table [("select", (s, []))]) = [])
  /\ BuildDataset db "authors"
       [("select", ("id,first_name,posts!inner(id,content)", []))]
     = mkDataset "authors"
         [SelC "id"; SelC "first_name"; SelC "posts!inner(id,content)"]
         [] [] None None None.
Proof.
  split.
  - intros table s. rewrite BuildDataset_where. reflexivity.
  - vm_compute. reflexivity.
Qed.

(** C5 fails on the code; this is what the code does instead: the
    many-to-one subquery is [row_to_json] of the whole related row, whatever
    child columns the embed lists. *)
Theorem many_to_one_projects_whole_row db table relTable colsStr :
  columnExists db table (singularize relTable ++ "_id") = true ->
  embedSub db table relTable colsStr
  = "(SELECT row_to_json(" ++ relTable ++ ".*) FROM " ++ relTable
    ++ " WHERE " ++ relTable ++ ".id = " ++ table ++ "."
    ++ (singularize relTable ++ "_id") ++ " LIMIT 1) AS " ++ relTable.
Proof.
  intros H. rewrite embedSub_unfold, H. reflexivity.
Qed.

Lemma many_to_one_projects_whole_row_witness :
  columnExists moviesSchema "movies" (singularize "directors" ++ "_id") = true
  /\ embedSub moviesSchema "movies" "directors" "id,name"
     = "(SELECT row_to_json(directors.*) FROM directors WHERE directors.id = movies.director_id LIMIT 1) AS directors".
Proof.
  split; [reflexivity|].
  apply (many_to_one_projects_whole_row moviesSchema "movies" "directors" "id,name").
  reflexivity.
Defined.

(** ** Relationship resolution *)

Lemma singularize_Singular name : Singular name (singularize name).
Proof.
  unfold singularize.
  destruct (HasSuffix name "ies") eqn:Hies.
  - apply HasSuffix_inv in Hies as [p ->].
    rewrite TrimSuffix_app. constructor.
  - destruct (HasSuffix name "s") eqn:Hs.
    + apply HasSuffix_inv in Hs as [p ->].
      rewrite TrimSuffix_app. constructor.
      intros q E. rewrite E, HasSuffix_app in Hies. discriminate.
    + constructor. intros q E. rewrite E, HasSuffix_app in Hs. discriminate.
Qed.

Lemma app_inv_tail_str (p q x : string) : p ++ x = q ++ x -> p = q.
Proof.
  intros E.
  assert (String.length p = String.length q) as Hlen.
  { apply (f_equal String.length) in E. rewrite !length_app in E. lia. }
  rewrite <- (substring_app_prefix p x), <- (substring_app_prefix q x).
  now rewrite E, Hlen.
Qed.

(** The relation determines the singular form. *)
Lemma Singular_functional name a b : Singular name a -> Singular name b -> a = b.
Proof.
  intros Ha Hb. destruct Ha as [p | p Hp | name Hn].
  - inversion Hb as [p' E | p' Hp' E | n' Hn' E]; subst.
    + apply app_inv_tail_str in E. now subst.
    + exfalso. apply (Hp' p). exact E.
    + exfalso. apply (Hn' (p ++ "ie")). now rewrite app_assoc_str.
  - inversion Hb as [p' E | p' Hp' E | n' Hn' E]; subst.
    + exfalso. apply (Hp p'). now rewrite E.
    + now apply app_inv_tail_str in E.
    + exfalso. now apply (Hn' p).
  - inversion Hb as [p' E | p' Hp' E | n' Hn' E]; subst.
    + exfalso. apply (Hn (p' ++ "ie")). now rewrite app_assoc_str.
    + exfalso. now apply (Hn b).
    + reflexivity.
Qed.

(** C4: for every parent and related table, both names are singularized as
    the specification says; the lookup asks the catalog for the column
    [{related_singular}_id] of the parent table; when it is there the embed
    is the scalar many-to-one subquery, otherwise it is the one-to-many
    array subquery joined on [{parent_singular}_id] of the related table;
    and that subquery is what a select field [related(cols)] compiles to. *)
Theorem relationship_resolution (db : Querier) table relTable colsStr :
  Singular relTable (singularize relTable)
  /\ Singular table (singularize table)
  /\ (columnExists db table (singularize relTable ++ "_id") = true
      <-> db columnExistsSQL [table; singularize relTable ++ "_id"] = Scanned true)
  /\ embedSub db table relTable colsStr
     = (if columnExists db table (singularize relTable ++ "_id")
        then "(SELECT row_to_json(" ++ relTable ++ ".*) FROM " ++ relTable
             ++ " WHERE " ++ relTable ++ ".id = " ++ table ++ "."
             ++ (singularize relTable ++ "_id")
             ++ " LIMIT 1) AS " ++ relTable
        else "(SELECT COALESCE(json_agg(row_to_json(arr)), '[]'::json) FROM (SELECT "
             ++ embedColList (embedCols colsStr) ++ " FROM " ++ relTable
             ++ " WHERE " ++ relTable ++ "." ++ (singularize table ++ "_id")
             ++ " = " ++ table ++ ".id) arr) AS " ++ relTable)
  /\ (relTable <> EmptyString ->
      allb isWord relTable = true ->
      noLineFeed colsStr = true ->
      selectField db table (relTable ++ "(" ++ colsStr ++ ")")
      = SelL (embedSub db table relTable colsStr)).
Proof.
  split; [apply singularize_Singular|].
  split; [apply singularize_Singular|].
  split.
  { unfold columnExists.
    destruct (db columnExistsSQL [table; singularize relTable ++ "_id"]) as [|b].
    - split; discriminate.
    - split; [now intros -> | now intros [= ->]]. }
  split; [now rewrite embedSub_unfold|].
  intros Hne Hw Hlf.
  apply selectField_embed. now apply matchEmbed_app.
Qed.

Lemma relationship_resolution_witness :
  "directors" <> EmptyString
  /\ allb isWord "directors" = true
  /\ noLineFeed "id,name" = true
  /\ Singular "directors" "director"
  /\ Singular "movies" "movy"
  /\ columnExists moviesSchema "movies" "director_id" = true
  /\ selectField moviesSchema "movies" "directors(id,name)"
     = SelL "(SELECT row_to_json(directors.*) FROM directors WHERE directors.id = movies.director_id LIMIT 1) AS directors".
Proof.
  split; [discriminate|]. split; [reflexivity|]. split; [reflexivity|].
  destruct (relationship_resolution moviesSchema "movies" "directors" "id,name")
    as (H1 & H2 & H3 & _ & H5).
  split; [exact H1|]. split; [exact H2|].
  split; [apply H3; reflexivity|].
  apply H5; [discriminate | reflexivity | reflexivity].
Defined.

(** The two resolutions the specification gives as examples. *)
Example authors_posts_is_one_to_many :
  selectCols noColumns "authors" "posts(id,content)"
  = [SelL "(SELECT COALESCE(json_agg(row_to_json(arr)), '[]'::json) FROM (SELECT id,content FROM posts WHERE posts.author_id = authors.id) arr) AS posts"].
Proof. vm_compute. reflexivity. Qed.

Example movies_directors_is_many_to_one :
  selectCols moviesSchema "movies" "directors(id,name)"
  = [SelL "(SELECT row_to_json(directors.*) FROM directors WHERE directors.id = movies.director_id LIMIT 1) AS directors"].
Proof. vm_compute. reflexivity. Qed.

(** ** Identifiers placed in SQL text *)

Lemma embedColList_text colsStr :
  embedColList (embedCols colsStr)
  = if String.eqb colsStr EmptyString then "*"
    else Join (map TrimSpace (Split colsStr ",")) ",".
Proof.
  unfold embedCols. destruct (String.eqb colsStr EmptyString); [reflexivity|].
  destruct (Split_cons colsStr ",") as (h & t & E). rewrite E. reflexivity.
Qed.

(** C6, as the code has it: no name is checked before it is written into
    SQL text, and no request is turned down for one.  For a select field
    that matches the embed pattern the related table is one or more of
    [[0-9A-Za-z_]], the pattern matching nothing else; the parent table is
    written into the subquery as received; the one-to-many subquery lists
    the pieces of the text between the parentheses cut at the commas, each
    trimmed of surrounding white space (a star when that text is empty),
    and the many-to-one subquery lists no columns.  A tenant header that is
    not empty is written between double quotes into the [SET LOCAL
    search_path] statement as received, and when that statement and the
    query succeed the answer is 200. *)
Theorem identifiers_written_without_validation
    (db : Querier) table f relTable colsStr
    (ToSQL : SelectDataset -> SQLQuery) (RowMap : Type) (tx : Tx RowMap)
    (r : Request) (rows : list (option RowMap)) :
  matchEmbed f = Some (relTable, colsStr) ->
  tenantHeader r <> EmptyString ->
  txExec tx ("SET LOCAL search_path TO " ++ dquote ++ tenantHeader r ++ dquote)
  = true ->
  txQuery tx (BuildQuery ToSQL (txQueryRow tx) (urlTable r) (urlQuery r))
  = inr rows ->
  validIdent relTable = true
  /\ selectField db table f
     = SelL (if columnExists db table (singularize relTable ++ "_id")
             then "(SELECT row_to_json(" ++ relTable ++ ".*) FROM " ++ relTable
                  ++ " WHERE " ++ relTable ++ ".id = " ++ table ++ "."
                  ++ (singularize relTable ++ "_id")
                  ++ " LIMIT 1) AS " ++ relTable
             else "(SELECT COALESCE(json_agg(row_to_json(arr)), '[]'::json) FROM (SELECT "
                  ++ (if String.eqb colsStr EmptyString then "*"
                      else Join (map TrimSpace (Split colsStr ",")) ",")
                  ++ " FROM " ++ relTable
                  ++ " WHERE " ++ relTable ++ "." ++ (singularize table ++ "_id")
                  ++ " = " ++ table ++ ".id) arr) AS " ++ relTable)
  /\ HandleSelect ToSQL (Some tx) r
     = (mkResponse StatusOK (Results (scanned RowMap rows)),
        (CallExec ("SET LOCAL search_path TO " ++ dquote ++ tenantHeader r
                   ++ dquote)
         :: lookupCalls (urlTable r) (urlQuery r)
         ++ [CallQuery (BuildQuery ToSQL (txQueryRow tx) (urlTable r) (urlQuery r));
             CallCommit; CallRollback])%list).
Proof.
  intros Hm Ht Hexec Hquery.
  split.
  { apply matchEmbed_inv in Hm as (_ & Hne & Hw & _).
    unfold validIdent. rewrite Hw, andb_true_r.
    apply negb_true_iff, String.eqb_neq. exact Hne. }
  split.
  { rewrite (selectField_embed db table f relTable colsStr Hm).
    now rewrite embedSub_unfold, embedColList_text. }
  unfold HandleSelect.
  apply String.eqb_neq in Ht. rewrite Ht.
  fold (searchPathSQL (tenantHeader r)) in Hexec |- *.
  rewrite Hexec. cbv zeta. simpl negb. cbv iota.
  now rewrite Hquery.
Qed.

Lemma identifiers_written_without_validation_witness :
  matchEmbed "posts(id, content)" = Some ("posts", "id, content")
  /\ tenantHeader embedRequest <> EmptyString
  /\ txExec acceptingTx
       ("SET LOCAL search_path TO " ++ dquote ++ tenantHeader embedRequest ++ dquote)
     = true
  /\ txQuery acceptingTx
       (BuildQuery noRendering (txQueryRow acceptingTx) (urlTable embedRequest)
          (urlQuery embedRequest))
     = inr []
  /\ validIdent "posts" = true
  /\ selectField noColumns "authors" "posts(id, content)"
     = SelL "(SELECT COALESCE(json_agg(row_to_json(arr)), '[]'::json) FROM (SELECT id,content FROM posts WHERE posts.author_id = authors.id) arr) AS posts"
  /\ HandleSelect noRendering (Some acceptingTx) embedRequest
     = (mkResponse StatusOK (Results []),
        [CallExec ("SET LOCAL search_path TO " ++ dquote ++ "public" ++ dquote);
         CallQueryRow columnExistsSQL ["authors"; "post_id"];
         CallQuery (mkSQLQuery EmptyString []);
         CallCommit; CallRollback]).
Proof.
  split; [reflexivity|]. split; [discriminate|]. split; [reflexivity|].
  split; [reflexivity|].
  apply (identifiers_written_without_validation noColumns "authors"
           "posts(id, content)" "posts" "id, content" noRendering unit
           acceptingTx embedRequest []);
    [reflexivity | discriminate | reflexivity | reflexivity].
Defined.

(** C6, as stated, fails: a child column list and a tenant header that are
    no identifiers are written into the SQL text, and nothing is
    rejected. *)
Lemma unvalidated_text_reaches_sql :
  validIdent injectedCols = false
  /\ Compile noColumns "authors" [("select", ("posts(" ++ injectedCols ++ ")", []))]
     = inr (mkDataset "authors"
              [SelL "(SELECT COALESCE(json_agg(row_to_json(arr)), '[]'::json) FROM (SELECT id; DROP TABLE posts FROM posts WHERE posts.author_id = authors.id) arr) AS posts"]
              [] [] None None None)
  /\ validIdent injectedTenant = false
  /\ HandleSelect noRendering (Some acceptingTx)
       (mkRequest "authors" injectedTenant [])
     = (mkResponse StatusOK (Results []),
        [CallExec ("SET LOCAL search_path TO " ++ dquote ++ "public" ++ dquote
                   ++ "; DROP SCHEMA public CASCADE; --" ++ dquote);
         CallQuery (mkSQLQuery EmptyString []);
         CallCommit; CallRollback]).
Proof. vm_compute. auto. Qed.

(** ** UTF-8: what [WriteRune] writes for what [range] decoded *)

Lemma byteZ_range c : 0 <= byteZ c < 256.
Proof.
  unfold byteZ. pose proof (N_ascii_bounded c). lia.
Qed.

Lemma zbyte_byteZ c : zbyte (byteZ c) = c.
Proof.
  unfold zbyte. pose proof (byteZ_range c) as H.
  change 0xFF with (Z.ones 8). rewrite Z.land_ones by lia.
  rewrite Z.mod_small by (change (2 ^ 8) with 256; lia).
  unfold byteZ. rewrite N2Z.id. apply ascii_N_embedding.
Qed.

Lemma lor_mul_pow2 a b n :
  0 <= n -> 0 <= b < 2 ^ n -> Z.lor (a * 2 ^ n) b = a * 2 ^ n + b.
Proof.
  intros Hn Hb.
  rewrite <- Z.add_lor_land.
  assert (Z.land (a * 2 ^ n) b = 0) as ->; [|lia].
  apply Z.bits_inj'. intros k Hk.
  rewrite Z.land_spec, Z.bits_0.
  destruct (Z.lt_ge_cases k n) as [Hlt|Hge].
  - rewrite Z.mul_pow2_bits_low by lia. reflexivity.
  - destruct (Z.eq_dec b 0) as [->|Hb0].
    + rewrite Z.bits_0. apply andb_false_r.
    + rewrite (Z.bits_above_log2 b k); [apply andb_false_r | lia |].
      apply Z.log2_lt_pow2; [lia|].
      apply Z.lt_le_trans with (2 ^ n); [lia|].
      apply Z.pow_le_mono_r; lia.
Qed.

Ltac bits_to_arith :=
  repeat match goal with
  | |- context [Z.land ?x 0x3F] => change (Z.land x 0x3F) with (Z.land x (Z.ones 6)); rewrite (Z.land_ones x 6) by lia
  | |- context [Z.land ?x 0x1F] => change (Z.land x 0x1F) with (Z.land x (Z.ones 5)); rewrite (Z.land_ones x 5) by lia
  | |- context [Z.land ?x 0x0F] => change (Z.land x 0x0F) with (Z.land x (Z.ones 4)); rewrite (Z.land_ones x 4) by lia
  | |- context [Z.land ?x 0x07] => change (Z.land x 0x07) with (Z.land x (Z.ones 3)); rewrite (Z.land_ones x 3) by lia
  | |- context [Z.shiftl ?x ?n] => rewrite (Z.shiftl_mul_pow2 x n) by lia
  | |- context [Z.shiftr ?x ?n] => rewrite (Z.shiftr_div_pow2 x n) by lia
  end.

Lemma rune2_arith c0 c1 :
  utf8.rune2 c0 c1 = (byteZ c0 mod 32) * 64 + byteZ c1 mod 64.
Proof.
  unfold utf8.rune2, utf8.mask2, utf8.maskx.
  bits_to_arith.
  change (2 ^ 6) with 64. change (2^5) with 32.
  apply (lor_mul_pow2 _ _ 6); [lia|]. change (2^6) with 64.
  apply Z.mod_pos_bound. lia.
Qed.

Lemma rune3_arith c0 c1 c2 :
  utf8.rune3 c0 c1 c2
  = (byteZ c0 mod 16) * 4096 + (byteZ c1 mod 64) * 64 + byteZ c2 mod 64.
Proof.
  unfold utf8.rune3, utf8.mask3, utf8.maskx.
  bits_to_arith.
  pose proof (Z.mod_pos_bound (byteZ c1) 64 eq_refl).
  pose proof (Z.mod_pos_bound (byteZ c2) 64 eq_refl).
  rewrite (lor_mul_pow2 _ (byteZ c1 mod 2 ^ 6 * 2 ^ 6) 12)
    by (change (2 ^ 6) with 64; change (2 ^ 12) with 4096; lia).
  change (2 ^ 4) with 16. change (2 ^ 6) with 64. change (2 ^ 12) with 4096.
  replace (byteZ c0 mod 16 * 4096 + byteZ c1 mod 64 * 64)
    with ((byteZ c0 mod 16 * 64 + byteZ c1 mod 64) * 2 ^ 6)
    by (change (2 ^ 6) with 64; lia).
  rewrite lor_mul_pow2 by (change (2 ^ 6) with 64; lia).
  change (2 ^ 6) with 64. lia.
Qed.

Lemma rune4_arith c0 c1 c2 c3 :
  utf8.rune4 c0 c1 c2 c3
  = (byteZ c0 mod 8) * 262144 + (byteZ c1 mod 64) * 4096
    + (byteZ c2 mod 64) * 64 + byteZ c3 mod 64.
Proof.
  unfold utf8.rune4, utf8.mask4, utf8.maskx.
  bits_to_arith.
  pose proof (Z.mod_pos_bound (byteZ c1) 64 eq_refl).
  pose proof (Z.mod_pos_bound (byteZ c2) 64 eq_refl).
  pose proof (Z.mod_pos_bound (byteZ c3) 64 eq_refl).
  rewrite (lor_mul_pow2 _ (byteZ c1 mod 2 ^ 6 * 2 ^ 12) 18)
    by (change (2 ^ 6) with 64; change (2 ^ 12) with 4096;
        change (2 ^ 18) with 262144; lia).
  change (2 ^ 3) with 8. change (2 ^ 6) with 64. change (2 ^ 12) with 4096.
  change (2 ^ 18) with 262144.
  replace (byteZ c0 mod 8 * 262144 + byteZ c1 mod 64 * 4096)
    with ((byteZ c0 mod 8 * 64 + byteZ c1 mod 64) * 2 ^ 12)
    by (change (2 ^ 12) with 4096; lia).
  rewrite (lor_mul_pow2 _ (byteZ c2 mod 64 * 64) 12)
    by (change (2 ^ 12) with 4096; lia).
  replace ((byteZ c0 mod 8 * 64 + byteZ c1 mod 64) * 2 ^ 12 + byteZ c2 mod 64 * 64)
    with (((byteZ c0 mod 8 * 64 + byteZ c1 mod 64) * 64 + byteZ c2 mod 64) * 2 ^ 6)
    by (change (2 ^ 12) with 4096; change (2 ^ 6) with 64; lia).
  rewrite lor_mul_pow2 by (change (2 ^ 6) with 64; lia).
  change (2 ^ 6) with 64. lia.
Qed.

Lemma cont_range c : utf8.cont c = true -> 128 <= byteZ c <= 191.
Proof.
  unfold utf8.cont, utf8.locb, utf8.hicb. intros H.
  apply andb_true_iff in H as [H1 H2]. lia.
Qed.

(** A byte rebuilt from its marker and its payload. *)
Lemma zbyte_lor c (hi n v : Z) :
  0 <= n -> 0 <= v < 2 ^ n -> byteZ c = hi * 2 ^ n + v ->
  zbyte (Z.lor (hi * 2 ^ n) v) = c.
Proof.
  intros Hn Hv Hc. rewrite lor_mul_pow2 by assumption.
  rewrite <- Hc. apply zbyte_byteZ.
Qed.

Lemma AppendRune_1 c : byteZ c < utf8.RuneSelf -> utf8.AppendRune (byteZ c) = str1 c.
Proof.
  unfold utf8.RuneSelf. intros H. unfold utf8.AppendRune, utf8.rune1Max.
  pose proof (byteZ_range c).
  destruct (Z.leb_spec 0 (byteZ c)); [|lia].
  destruct (Z.leb_spec (byteZ c) 127); [|lia].
  simpl. now rewrite zbyte_byteZ.
Qed.

Lemma AppendRune_2 c0 c1 :
  utf8.is2 c0 c1 = true ->
  utf8.AppendRune (utf8.rune2 c0 c1) = String c0 (str1 c1)
  /\ 128 <= utf8.rune2 c0 c1.
Proof.
  unfold utf8.is2, utf8.t2, utf8.t3, utf8.rune1Max. intros H.
  apply andb_true_iff in H as [H Hr].
  apply andb_true_iff in H as [H Hc1].
  apply andb_true_iff in H as [Hlo Hhi].
  apply cont_range in Hc1.
  apply Z.leb_le in Hlo. apply Z.ltb_lt in Hhi. apply Z.ltb_lt in Hr.
  split; [|lia].
  pose proof (rune2_arith c0 c1) as Ha.
  set (r := utf8.rune2 c0 c1) in *.
  assert (r = (byteZ c0 - 192) * 64 + (byteZ c1 - 128)) as Hv.
  { rewrite Ha. Z.div_mod_to_equations. lia. }
  unfold utf8.AppendRune, utf8.rune1Max, utf8.rune2Max, utf8.t2, utf8.tx, utf8.maskx.
  destruct (Z.leb_spec 0 r); [|lia].
  destruct (Z.leb_spec r 127); [lia|].
  destruct (Z.leb_spec r 2047); [|lia].
  simpl andb. cbv iota.
  unfold str1. f_equal; [|f_equal].
  - change 192 with (3 * 2 ^ 6). apply zbyte_lor; [lia| |].
    + rewrite Z.shiftr_div_pow2 by lia. change (2 ^ 6) with 64.
      Z.div_mod_to_equations. lia.
    + rewrite Z.shiftr_div_pow2 by lia. change (2 ^ 6) with 64.
      Z.div_mod_to_equations. lia.
  - change 128 with (2 * 2 ^ 6). change 63 with (Z.ones 6).
    rewrite Z.land_ones by lia. apply zbyte_lor; [lia| |].
    + change (2 ^ 6) with 64. Z.div_mod_to_equations. lia.
    + change (2 ^ 6) with 64. Z.div_mod_to_equations. lia.
Qed.

Ltac payload :=
  rewrite ?Z.shiftr_div_pow2 by lia;
  change (2 ^ 3) with 8; change (2 ^ 4) with 16; change (2 ^ 6) with 64;
  change (2 ^ 12) with 4096; change (2 ^ 18) with 262144;
  Z.div_mod_to_equations; lia.

Ltac marker_byte hi n :=
  match goal with
  | |- zbyte (Z.lor ?m (Z.land ?x 63)) = _ =>
    change m with (hi * 2 ^ n); change 63 with (Z.ones 6);
    rewrite (Z.land_ones x 6) by lia; apply zbyte_lor; [lia | payload | payload]
  | |- zbyte (Z.lor ?m _) = _ =>
    change m with (hi * 2 ^ n); apply zbyte_lor; [lia | payload | payload]
  end.

Lemma AppendRune_3 c0 c1 c2 :
  utf8.is3 c0 c1 c2 = true ->
  utf8.AppendRune (utf8.rune3 c0 c1 c2) = String c0 (String c1 (str1 c2))
  /\ 128 <= utf8.rune3 c0 c1 c2.
Proof.
  unfold utf8.is3, utf8.t3, utf8.t4, utf8.rune2Max, utf8.surrogateMin,
    utf8.surrogateMax.
  intros H.
  apply andb_true_iff in H as [H Hsur].
  apply andb_true_iff in H as [H Hr].
  apply andb_true_iff in H as [H Hc2].
  apply andb_true_iff in H as [H Hc1].
  apply andb_true_iff in H as [Hlo Hhi].
  apply cont_range in Hc1. apply cont_range in Hc2.
  apply Z.leb_le in Hlo. apply Z.ltb_lt in Hhi. apply Z.ltb_lt in Hr.
  apply negb_true_iff in Hsur.
  split; [|lia].
  pose proof (rune3_arith c0 c1 c2) as Ha.
  set (r := utf8.rune3 c0 c1 c2) in *.
  assert (r = (byteZ c0 - 224) * 4096 + (byteZ c1 - 128) * 64 + (byteZ c2 - 128))
    as Hv.
  { rewrite Ha. Z.div_mod_to_equations. lia. }
  unfold utf8.AppendRune, utf8.rune1Max, utf8.rune2Max, utf8.rune3Max,
    utf8.MaxRune, utf8.surrogateMin, utf8.surrogateMax.
  rewrite Hsur.
  destruct (Z.leb_spec 0 r); [|lia].
  destruct (Z.leb_spec r 127); [lia|].
  destruct (Z.leb_spec r 2047); [lia|].
  destruct (Z.ltb_spec r 0); [lia|].
  destruct (Z.ltb_spec 1114111 r); [lia|].
  destruct (Z.leb_spec r 65535); [|lia].
  simpl andb. simpl orb. cbv iota.
  unfold utf8.encode3, utf8.t3, utf8.tx, utf8.maskx, str1.
  f_equal; [|f_equal; [|f_equal]].
  - marker_byte 14 4.
  - marker_byte 2 6.
  - marker_byte 2 6.
Qed.

Lemma AppendRune_4 c0 c1 c2 c3 :
  utf8.is4 c0 c1 c2 c3 = true ->
  utf8.AppendRune (utf8.rune4 c0 c1 c2 c3)
  = String c0 (String c1 (String c2 (str1 c3)))
  /\ 128 <= utf8.rune4 c0 c1 c2 c3.
Proof.
  unfold utf8.is4, utf8.t4, utf8.t5, utf8.rune3Max, utf8.MaxRune.
  intros H.
  apply andb_true_iff in H as [H Hmax].
  apply andb_true_iff in H as [H Hr].
  apply andb_true_iff in H as [H Hc3].
  apply andb_true_iff in H as [H Hc2].
  apply andb_true_iff in H as [H Hc1].
  apply andb_true_iff in H as [Hlo Hhi].
  apply cont_range in Hc1. apply cont_range in Hc2. apply cont_range in Hc3.
  apply Z.leb_le in Hlo. apply Z.ltb_lt in Hhi. apply Z.ltb_lt in Hr.
  apply Z.leb_le in Hmax.
  split; [|lia].
  pose proof (rune4_arith c0 c1 c2 c3) as Ha.
  set (r := utf8.rune4 c0 c1 c2 c3) in *.
  assert (r = (byteZ c0 - 240) * 262144 + (byteZ c1 - 128) * 4096
              + (byteZ c2 - 128) * 64 + (byteZ c3 - 128)) as Hv.
  { rewrite Ha. Z.div_mod_to_equations. lia. }
  unfold utf8.AppendRune, utf8.rune1Max, utf8.rune2Max, utf8.rune3Max,
    utf8.MaxRune, utf8.surrogateMin, utf8.surrogateMax.
  destruct (Z.leb_spec 0 r); [|lia].
  destruct (Z.leb_spec r 127); [lia|].
  destruct (Z.leb_spec r 2047); [lia|].
  destruct (Z.ltb_spec r 0); [lia|].
  destruct (Z.ltb_spec 1114111 r); [lia|].
  destruct (Z.leb_spec 55296 r); [|lia].
  destruct (Z.leb_spec r 57343); [lia|].
  destruct (Z.leb_spec r 65535); [lia|].
  simpl andb. simpl orb. cbv iota.
  unfold utf8.t4, utf8.tx, utf8.maskx, str1.
  f_equal; [|f_equal; [|f_equal; [|f_equal]]].
  - marker_byte 30 3.
  - marker_byte 2 6.
  - marker_byte 2 6.
  - marker_byte 2 6.
Qed.

Lemma splitStep_with st r : splitStep st r = splitStepWith st r (utf8.AppendRune r).
Proof. reflexivity. Qed.

Lemma splitStepWith_high st r w :
  128 <= r ->
  splitStepWith st r w = mkSplit (sFields st) (sCur st ++ w) (sDepth st).
Proof.
  intros H. unfold splitStepWith.
  change (rune ",") with 44. change (rune "(") with 40. change (rune ")") with 41.
  destruct (Z.eqb_spec r 44); [lia|].
  destruct (Z.eqb_spec r 40); [lia|].
  destruct (Z.eqb_spec r 41); [lia|].
  reflexivity.
Qed.

Lemma splitBytes_high bs : forall rest st,
  allb highByte bs = true ->
  splitBytes (bs ++ rest) st
  = splitBytes rest (mkSplit (sFields st) (sCur st ++ bs) (sDepth st)).
Proof.
  induction bs as [|c bs IH]; intros rest st H; simpl in *.
  - rewrite app_empty_r. now destruct st.
  - apply andb_true_iff in H as [Hc Hbs].
    rewrite (IH rest _ Hbs). unfold byteStep.
    rewrite splitStepWith_high by (unfold highByte in Hc; lia).
    simpl. now rewrite app_assoc_str.
Qed.

Lemma rangeString_cases c0 s1 :
  (byteZ c0 < 128
   /\ utf8.rangeString (String c0 s1) = (byteZ c0, 1%nat) :: utf8.rangeString s1)
  \/ (128 <= byteZ c0 /\
      ((exists c1 s2, s1 = String c1 s2 /\ utf8.is2 c0 c1 = true
          /\ utf8.rangeString (String c0 s1)
             = (utf8.rune2 c0 c1, 2%nat) :: utf8.rangeString s2)
       \/ (exists c1 c2 s3, s1 = String c1 (String c2 s3)
          /\ utf8.is3 c0 c1 c2 = true
          /\ utf8.rangeString (String c0 s1)
             = (utf8.rune3 c0 c1 c2, 3%nat) :: utf8.rangeString s3)
       \/ (exists c1 c2 c3 s4, s1 = String c1 (String c2 (String c3 s4))
          /\ utf8.is4 c0 c1 c2 c3 = true
          /\ utf8.rangeString (String c0 s1)
             = (utf8.rune4 c0 c1 c2 c3, 4%nat) :: utf8.rangeString s4)
       \/ utf8.rangeString (String c0 s1)
          = (utf8.RuneError, 1%nat) :: utf8.rangeString s1)).
Proof.
  cbn [utf8.rangeString]. unfold utf8.RuneSelf.
  destruct (Z.ltb_spec (byteZ c0) 128) as [Hlt|Hge]; [left; auto|].
  right. split; [exact Hge|].
  destruct s1 as [|c1 s2]; [auto 6|].
  destruct (utf8.is2 c0 c1) eqn:H2; [left; eauto 6|].
  destruct s2 as [|c2 s3]; [auto 6|].
  destruct (utf8.is3 c0 c1 c2) eqn:H3; [right; left; eauto 8|].
  destruct s3 as [|c3 s4]; [auto 6|].
  destruct (utf8.is4 c0 c1 c2 c3) eqn:H4; [right; right; left; eauto 10|].
  auto 6.
Qed.

Lemma ValidString_cons rw s s' :
  utf8.rangeString s = rw :: utf8.rangeString s' ->
  utf8.ValidString s = true ->
  negb ((fst rw =? utf8.RuneError) && Nat.eqb (snd rw) 1) = true
  /\ utf8.ValidString s' = true.
Proof.
  unfold utf8.ValidString. intros -> H. simpl in H.
  now apply andb_true_iff in H.
Qed.

Lemma runes_cons s rw s' :
  utf8.rangeString s = rw :: utf8.rangeString s' ->
  utf8.runes s = fst rw :: utf8.runes s'.
Proof. unfold utf8.runes. now intros ->. Qed.

(** On valid UTF-8 the loop over the runes is the loop over the bytes. *)
Lemma split_runes_bytes : forall n s,
  (String.length s <= n)%nat ->
  utf8.ValidString s = true ->
  forall st, fold_left splitStep (utf8.runes s) st = splitBytes s st.
Proof.
  induction n as [|n IH]; intros s Hlen Hv st.
  - destruct s; [reflexivity | simpl in Hlen; lia].
  - destruct s as [|c0 s1]; [reflexivity|].
    simpl in Hlen.
    destruct (rangeString_cases c0 s1)
      as [[Hlt E] | [Hge [(c1 & s2 & -> & H2 & E)
                        | [(c1 & c2 & s3 & -> & H3 & E)
                          | [(c1 & c2 & c3 & s4 & -> & H4 & E) | E]]]]].
    + destruct (ValidString_cons _ _ _ E Hv) as [_ Hv'].
      rewrite (runes_cons _ _ _ E). cbn [fold_left fst splitBytes].
      rewrite IH by (auto; lia).
      rewrite splitStep_with, AppendRune_1 by exact Hlt. reflexivity.
    + destruct (ValidString_cons _ _ _ E Hv) as [_ Hv'].
      destruct (AppendRune_2 _ _ H2) as [Henc Hr].
      rewrite (runes_cons _ _ _ E). cbn [fold_left fst].
      rewrite IH by (auto; simpl in Hlen; lia).
      rewrite splitStep_with, Henc, splitStepWith_high by exact Hr.
      change (String c0 (String c1 s2)) with (String c0 (str1 c1) ++ s2).
      rewrite splitBytes_high; [reflexivity|].
      unfold utf8.is2 in H2. apply andb_true_iff in H2 as [H2 _].
      apply andb_true_iff in H2 as [_ Hc1]. apply cont_range in Hc1.
      simpl. unfold highByte.
      repeat (apply andb_true_iff; split); auto; apply Z.leb_le; lia.
    + destruct (ValidString_cons _ _ _ E Hv) as [_ Hv'].
      destruct (AppendRune_3 _ _ _ H3) as [Henc Hr].
      rewrite (runes_cons _ _ _ E). cbn [fold_left fst].
      rewrite IH by (auto; simpl in Hlen; lia).
      rewrite splitStep_with, Henc, splitStepWith_high by exact Hr.
      change (String c0 (String c1 (String c2 s3)))
        with (String c0 (String c1 (str1 c2)) ++ s3).
      rewrite splitBytes_high; [reflexivity|].
      unfold utf8.is3 in H3.
      apply andb_true_iff in H3 as [H3 _]. apply andb_true_iff in H3 as [H3 _].
      apply andb_true_iff in H3 as [H3 Hc2]. apply andb_true_iff in H3 as [_ Hc1].
      apply cont_range in Hc1. apply cont_range in Hc2.
      simpl. unfold highByte.
      repeat (apply andb_true_iff; split); auto; apply Z.leb_le; lia.
    + destruct (ValidString_cons _ _ _ E Hv) as [_ Hv'].
      destruct (AppendRune_4 _ _ _ _ H4) as [Henc Hr].
      rewrite (runes_cons _ _ _ E). cbn [fold_left fst].
      rewrite IH by (auto; simpl in Hlen; lia).
      rewrite splitStep_with, Henc, splitStepWith_high by exact Hr.
      change (String c0 (String c1 (String c2 (String c3 s4))))
        with (String c0 (String c1 (String c2 (str1 c3))) ++ s4).
      rewrite splitBytes_high; [reflexivity|].
      unfold utf8.is4 in H4.
      apply andb_true_iff in H4 as [H4 _]. apply andb_true_iff in H4 as [H4 _].
      apply andb_true_iff in H4 as [H4 Hc3]. apply andb_true_iff in H4 as [H4 Hc2].
      apply andb_true_iff in H4 as [_ Hc1].
      apply cont_range in Hc1. apply cont_range in Hc2. apply cont_range in Hc3.
      simpl. unfold highByte.
      repeat (apply andb_true_iff; split); auto; apply Z.leb_le; lia.
    + destruct (ValidString_cons _ _ _ E Hv) as [Hbad _].
      simpl in Hbad. discriminate.
Qed.

Lemma byteZ_eqb a b : (byteZ a =? byteZ b) = Ascii.eqb a b.
Proof.
  destruct (Ascii.eqb_spec a b) as [->|Hne]; [apply Z.eqb_refl|].
  apply Z.eqb_neq. intros E. apply Hne.
  rewrite <- (zbyte_byteZ a), <- (zbyte_byteZ b). now rewrite E.
Qed.

Lemma Join_snoc l x sep :
  Join (l ++ [x]) sep
  = match l with
    | [] => x
    | _ => Join l sep ++ sep ++ x
    end.
Proof.
  induction l as [|a l IH]; [reflexivity|].
  destruct l as [|b l]; [reflexivity|].
  change (Join ((a :: b :: l) ++ [x]) sep)
    with (a ++ sep ++ Join ((b :: l) ++ [x]) sep).
  rewrite IH.
  change (Join (a :: b :: l) sep) with (a ++ sep ++ Join (b :: l) sep).
  now rewrite !app_assoc_str.
Qed.

Lemma flat_write st w d :
  flat (mkSplit (sFields st) (sCur st ++ w) d) = flat st ++ w.
Proof.
  unfold flat. simpl. rewrite !Join_snoc.
  destruct (sFields st); [reflexivity|]. now rewrite !app_assoc_str.
Qed.

Lemma flat_byteStep st c : flat (byteStep st c) = flat st ++ str1 c.
Proof.
  unfold byteStep, splitStepWith.
  change (rune ",") with (byteZ ","). change (rune "(") with (byteZ "(").
  change (rune ")") with (byteZ ")"). rewrite !byteZ_eqb.
  destruct (Ascii.eqb_spec c ",") as [->|_].
  - destruct (sDepth st =? 0); [|apply flat_write].
    unfold flat. simpl. rewrite (Join_snoc (sFields st ++ [sCur st])).
    destruct (sFields st); reflexivity.
  - destruct (Ascii.eqb c "("); [apply flat_write|].
    destruct (Ascii.eqb c ")"); apply flat_write.
Qed.

Lemma flat_splitBytes s : forall st, flat (splitBytes s st) = flat st ++ s.
Proof.
  induction s as [|c s IH]; intros st; simpl.
  - now rewrite app_empty_r.
  - rewrite IH, flat_byteStep. now rewrite app_assoc_str.
Qed.

Lemma app_str1_nonempty (a : string) c : a ++ str1 c <> EmptyString.
Proof. destruct a; discriminate. Qed.

Lemma byteStep_cur_empty st c :
  sCur (byteStep st c) = EmptyString ->
  Ascii.eqb c "," = true /\ (sDepth st =? 0) = true.
Proof.
  unfold byteStep, splitStepWith.
  change (rune ",") with (byteZ ","). change (rune "(") with (byteZ "(").
  change (rune ")") with (byteZ ")"). rewrite !byteZ_eqb.
  destruct (Ascii.eqb c ",").
  - destruct (sDepth st =? 0); [auto|].
    simpl. intros H. now apply app_str1_nonempty in H.
  - destruct (Ascii.eqb c "("); [|destruct (Ascii.eqb c ")")];
      simpl; intros H; now apply app_str1_nonempty in H.
Qed.

Lemma byteStep_depth st c :
  sDepth (byteStep st c) = nextDepth (sDepth st) c.
Proof.
  unfold byteStep, splitStepWith, nextDepth.
  change (rune ",") with (byteZ ","). change (rune "(") with (byteZ "(").
  change (rune ")") with (byteZ ")"). rewrite !byteZ_eqb.
  destruct (Ascii.eqb_spec c ",") as [->|_].
  - destruct (sDepth st =? 0); reflexivity.
  - destruct (Ascii.eqb c "("); [reflexivity|].
    destruct (Ascii.eqb c ")"); reflexivity.
Qed.

Lemma splitBytes_cur_empty s : forall st,
  sCur (splitBytes s st) = EmptyString ->
  (s = EmptyString /\ sCur st = EmptyString)
  \/ endsAtTopComma (sDepth st) s = true.
Proof.
  induction s as [|c s IH]; intros st H; [left; auto|].
  right. simpl in H. destruct (IH _ H) as [[-> Hcur] | Hends].
  - apply byteStep_cur_empty in Hcur as [Hc Hd]. simpl. now rewrite Hc, Hd.
  - rewrite byteStep_depth in Hends.
    destruct s; [discriminate | exact Hends].
Qed.

(** C10, as the code has it: for a valid UTF-8 string that does not end
    with a comma at parenthesis depth zero, joining the fields
    [splitSelectFields] returns with commas gives the string back. *)
Theorem split_join_roundtrip s :
  utf8.ValidString s = true ->
  endsAtTopComma 0 s = false ->
  Join (splitSelectFields s) "," = s.
Proof.
  intros Hv Hends. unfold splitSelectFields.
  rewrite (split_runes_bytes (String.length s) s (le_n _) Hv).
  pose proof (flat_splitBytes s splitInit) as Hflat.
  change (flat splitInit ++ s) with s in Hflat.
  unfold splitFinish.
  destruct (sCur (splitBytes s splitInit)) as [|c cur] eqn:Hcur.
  - apply splitBytes_cur_empty in Hcur as [[-> _] | Hcur].
    + reflexivity.
    + simpl in Hcur. congruence.
  - unfold flat in Hflat. rewrite Hcur in Hflat. exact Hflat.
Qed.

Lemma split_join_roundtrip_witness :
  utf8.ValidString "id,first_name,posts(id,content,stats(id,views))" = true
  /\ endsAtTopComma 0 "id,first_name,posts(id,content,stats(id,views))" = false
  /\ Join (splitSelectFields "id,first_name,posts(id,content,stats(id,views))") ","
     = "id,first_name,posts(id,content,stats(id,views))".
Proof.
  split; [reflexivity|]. split; [reflexivity|].
  apply (split_join_roundtrip "id,first_name,posts(id,content,stats(id,views))");
    reflexivity.
Defined.

(** C10, as stated, fails: the byte 0xFF is no UTF-8, [range] reads it as
    [RuneError] and [WriteRune] writes the three bytes of U+FFFD. *)
Lemma split_join_replaces_invalid_byte :
  endsAtTopComma 0 invalidByte = false
  /\ Join (splitSelectFields invalidByte) ","
     = String (ascii_of_nat 239) (String (ascii_of_nat 191) (str1 (ascii_of_nat 189)))
  /\ Join (splitSelectFields invalidByte) "," <> invalidByte.
Proof.
  split; [reflexivity|]. split; [reflexivity|]. discriminate.
Qed.

(** * The rest of the builder and the handler *)

(** ** Select list and joins of the result *)

Lemma fold_SelectAppend_eq (mk : string -> SelectExpr) cols : forall q,
  fold_left (fun q col => SelectAppend q (mk col)) cols q
  = mkDataset (dFrom q) (dSelect q ++ map mk cols) (dWhere q) (dJoins q)
              (dOrder q) (dLimit q) (dOffset q).
Proof.
  induction cols as [|c cols IH]; intros q; simpl.
  - rewrite app_nil_r. now destruct q.
  - rewrite IH. simpl. now rewrite <- app_assoc.
Qed.

Lemma applyJoin_eq q join table :
  applyJoin q join table
  = mkDataset (dFrom q) (dSelect q ++ joinColumns join) (dWhere q)
              (dJoins q ++ [joinClause table join]) (dOrder q) (dLimit q)
              (dOffset q).
Proof.
  unfold applyJoin, joinColumns. destruct (Columns join) as [|c cols]; [reflexivity|].
  now rewrite fold_SelectAppend_eq.
Qed.

Lemma fold_applyJoin_eq table joins : forall q,
  fold_left (fun q join => applyJoin q join table) joins q
  = mkDataset (dFrom q) (dSelect q ++ flat_map joinColumns joins) (dWhere q)
              (dJoins q ++ map (joinClause table) joins) (dOrder q) (dLimit q)
              (dOffset q).
Proof.
  induction joins as [|j joins IH]; intros q; simpl.
  - rewrite !app_nil_r. now destruct q.
  - rewrite IH, applyJoin_eq. simpl. now rewrite <- !app_assoc.
Qed.

Lemma fold_whereStep_eq params l : forall q,
  fold_left (whereStep params) l q
  = mkDataset (dFrom q) (dSelect q) (dWhere q ++ mainFilters params l)
              (dJoins q) (dOrder q) (dLimit q) (dOffset q).
Proof.
  induction l as [|kv l IH]; intros q; simpl.
  - rewrite app_nil_r. now destruct q.
  - rewrite IH. unfold whereStep.
    destruct (paramFilter params kv); simpl; [now rewrite <- app_assoc | reflexivity].
Qed.

Lemma page_stages_keep q params :
  dFrom (applyOffset params (applyLimit params (applyOrder params q))) = dFrom q
  /\ dSelect (applyOffset params (applyLimit params (applyOrder params q))) = dSelect q
  /\ dJoins (applyOffset params (applyLimit params (applyOrder params q))) = dJoins q.
Proof.
  unfold applyOffset, applyLimit, applyOrder.
  destruct (negb (Get params "offset" =? "")%string), (Atoi (Get params "offset"));
  destruct (negb (Get params "limit" =? "")%string), (Atoi (Get params "limit"));
  destruct (negb (Get params "order" =? "")%string);
  try destruct (SplitN2 (Get params "order") ".") as [|col [|dir rest]];
  try destruct (dir =? "desc")%string; auto.
Qed.

Lemma AppendRune_nonempty r : utf8.AppendRune r <> EmptyString.
Proof.
  unfold utf8.AppendRune, utf8.encode3, str1.
  repeat match goal with |- context [if ?b then _ else _] => destruct b end;
    discriminate.
Qed.

Lemma app_nonempty_r (a b : string) : b <> EmptyString -> a ++ b <> EmptyString.
Proof. destruct a; simpl; [auto | discriminate]. Qed.

Lemma splitStep_started st r : started (splitStep st r).
Proof.
  unfold started, splitStep, writeRune.
  pose proof (AppendRune_nonempty r) as Hr.
  repeat match goal with |- context [if ?b then _ else _] => destruct b end;
    simpl; try (right; now apply app_nonempty_r).
  left. destruct (sFields st); discriminate.
Qed.

Lemma fold_splitStep_started rs : forall st,
  started st -> started (fold_left splitStep rs st).
Proof.
  induction rs as [|r rs IH]; intros st H; simpl; [exact H|].
  apply IH, splitStep_started.
Qed.

Lemma runes_nonempty c s : utf8.runes (String c s) <> [].
Proof.
  unfold utf8.runes.
  destruct (rangeString_cases c s)
    as [[_ E] | [_ [(c1 & s2 & _ & _ & E)
                   | [(c1 & c2 & s3 & _ & _ & E)
                     | [(c1 & c2 & c3 & s4 & _ & _ & E) | E]]]]];
    rewrite E; discriminate.
Qed.

Lemma splitSelectFields_nonempty s :
  s <> EmptyString -> splitSelectFields s <> [].
Proof.
  intros Hs. destruct s as [|c s]; [congruence|].
  unfold splitSelectFields.
  pose proof (runes_nonempty c s) as Hr.
  destruct (utf8.runes (String c s)) as [|r rs]; [congruence|].
  simpl fold_left.
  pose proof (fold_splitStep_started rs _ (splitStep_started splitInit r)) as H.
  unfold splitFinish.
  destruct (fold_left splitStep rs (splitStep splitInit r)) as [fields cur depth].
  unfold started in H. simpl in *.
  destruct cur; simpl.
  - destruct H; congruence.
  - destruct fields; discriminate.
Qed.

Lemma selectCols_nonempty db table s :
  s <> EmptyString -> selectCols db table s <> [].
Proof.
  intros Hs. unfold selectCols.
  pose proof (splitSelectFields_nonempty s Hs).
  destruct (splitSelectFields s); [congruence | discriminate].
Qed.

Lemma applySelect_From db table params :
  applySelect db table params (From table)
  = mkDataset table
      (if String.eqb (Get params "select") EmptyString
       then [SelString "*"]
       else selectCols db table (Get params "select"))
      [] [] None None None.
Proof.
  unfold applySelect.
  destruct (String.eqb_spec (Get params "select") EmptyString) as [E|E]; simpl;
    [reflexivity|].
  pose proof (selectCols_nonempty db table _ E).
  destruct (selectCols db table (Get params "select")); [congruence | reflexivity].
Qed.

(** X1: the query is on the requested table; its joins are the parsed joins
    in order, each as a left join of the main table's column with the joined
    table's column; and its select list is the compiled select fields (a
    single star when [select] is absent or empty) followed by the columns of
    each join in join order. *)
Theorem select_list_and_joins db table params :
  dFrom (BuildDataset db table params) = table
  /\ dJoins (BuildDataset db table params)
     = map (joinClause table) (parseJoins params table)
  /\ dSelect (BuildDataset db table params)
     = ((if String.eqb (Get params "select") EmptyString
         then [SelString "*"]
         else selectCols db table (Get params "select"))
        ++ flat_map joinColumns (parseJoins params table))%list.
Proof.
  unfold BuildDataset. cbv zeta.
  destruct (page_stages_keep
    (fold_left (fun q join => applyJoin q join table) (parseJoins params table)
       (applyWhere params (applySelect db table params (From table)))) params)
    as (H1 & H2 & H3).
  rewrite H1, H2, H3. unfold applyWhere.
  rewrite fold_applyJoin_eq, fold_whereStep_eq, applySelect_From. simpl.
  auto.
Qed.

(** ** Order and page *)

Lemma Contains_byte_cons x s c :
  Contains (String x s) (str1 c) = Ascii.eqb x c || Contains s (str1 c).
Proof. simpl. now rewrite andb_true_r. Qed.

Lemma SplitN2_no_sep s c :
  Contains s (str1 c) = false -> SplitN2 s c = [s].
Proof.
  induction s as [|x s IH]; intros H; [reflexivity|].
  rewrite Contains_byte_cons in H. apply orb_false_elim in H as [Hx Hs].
  simpl. rewrite Hx, (IH Hs). reflexivity.
Qed.

Lemma SplitN2_at_first a b c :
  Contains a (str1 c) = false -> SplitN2 (a ++ String c b) c = [a; b].
Proof.
  induction a as [|x a IH]; intros H; simpl.
  - now rewrite Ascii.eqb_refl.
  - rewrite Contains_byte_cons in H. apply orb_false_elim in H as [Hx Ha].
    rewrite Hx, (IH Ha). reflexivity.
Qed.

Lemma before_order db table params :
  fold_left (fun q join => applyJoin q join table) (parseJoins params table)
    (applyWhere params (applySelect db table params (From table)))
  = mkDataset table
      ((if String.eqb (Get params "select") EmptyString
        then [SelString "*"]
        else selectCols db table (Get params "select"))
       ++ flat_map joinColumns (parseJoins params table))
      (mainFilters params params)
      (map (joinClause table) (parseJoins params table))
      None None None.
Proof.
  unfold applyWhere.
  now rewrite fold_applyJoin_eq, fold_whereStep_eq, applySelect_From.
Qed.

Lemma page_stages_keep_order q params :
  dOrder (applyOffset params (applyLimit params q)) = dOrder q.
Proof.
  unfold applyOffset, applyLimit.
  destruct (negb (Get params "offset" =? "")%string), (Atoi (Get params "offset"));
  destruct (negb (Get params "limit" =? "")%string), (Atoi (Get params "limit"));
  reflexivity.
Qed.

(** X12: without [order] there is no ordering; an [order] without dot
    orders ascending by the whole value; otherwise the part before the first
    dot is the column and the ordering is descending exactly when the rest is
    [desc], ascending for anything else. *)
Theorem order_clause db table params :
  (Get params "order" = EmptyString ->
   dOrder (BuildDataset db table params) = None)
  /\ (Get params "order" <> EmptyString ->
      Contains (Get params "order") "." = false ->
      dOrder (BuildDataset db table params) = Some (Asc (Get params "order")))
  /\ (forall col dir,
      Contains col "." = false ->
      Get params "order" = col ++ "." ++ dir ->
      dOrder (BuildDataset db table params)
      = Some (if String.eqb dir "desc" then Desc col else Asc col)).
Proof.
  unfold BuildDataset. cbv zeta.
  rewrite page_stages_keep_order, before_order. unfold applyOrder.
  split; [|split].
  - intros ->. reflexivity.
  - intros Hne Hdot. apply String.eqb_neq in Hne. rewrite Hne. simpl.
    rewrite (SplitN2_no_sep _ "."%char Hdot). reflexivity.
  - intros col dir Hcol ->.
    assert ((col ++ "." ++ dir =? "")%string = false) as ->
      by (apply String.eqb_neq; destruct col; discriminate).
    simpl negb. cbv iota.
    change (col ++ "." ++ dir) with (col ++ String "." dir).
    rewrite (SplitN2_at_first col dir "."%char Hcol).
    destruct (dir =? "desc")%string; reflexivity.
Qed.

Lemma order_clause_witness :
  Contains "views" "." = false
  /\ Get [("order", ("views.banana", []))] "order" = "views" ++ "." ++ "banana"
  /\ dOrder (BuildDataset noColumns "posts" [("order", ("views.banana", []))])
     = Some (Asc "views").
Proof.
  split; [reflexivity|]. split; [reflexivity|].
  destruct (order_clause noColumns "posts" [("order", ("views.banana", []))])
    as (_ & _ & H).
  apply (H "views" "banana"); reflexivity.
Defined.

Lemma Atoi_range s n : Atoi s = Some n -> minInt <= n <= maxInt.
Proof.
  unfold Atoi.
  destruct (match s with
            | String "-" s' => (true, s')
            | String "+" s' => (false, s')
            | _ => (false, s)
            end) as [neg ds].
  destruct ds; [discriminate|].
  destruct (digitsValue 0 _) as [v|]; [|discriminate].
  destruct ((minInt <=? (if neg then - v else v)) && ((if neg then - v else v) <=? maxInt)) eqn:E;
    [|discriminate].
  intros [= <-]. apply andb_true_iff in E as [E1 E2]. lia.
Qed.

Lemma uint_cases n :
  minInt <= n <= maxInt ->
  uint n = if n <? 0 then n + 2 ^ 64 else n.
Proof.
  unfold minInt, maxInt, uint. intros H.
  destruct (Z.ltb_spec n 0).
  - rewrite <- (Z.mod_add n 1) by lia. rewrite Z.mod_small; lia.
  - rewrite Z.mod_small; lia.
Qed.

Lemma BuildDataset_page db table params :
  dLimit (BuildDataset db table params)
  = match Atoi (Get params "limit") with
    | Some n => if 0 <? uint n then Some (uint n) else None
    | None => None
    end
  /\ dOffset (BuildDataset db table params)
     = option_map uint (Atoi (Get params "offset")).
Proof.
  rewrite BuildDataset_unfold.
  destruct (beforePage_clauses db table params) as (_ & HL & HO).
  split.
  - destruct (applyOffset_clauses params (applyLimit params (beforePage db table params)))
      as (_ & G).
    rewrite G. unfold applyLimit.
    destruct (String.eqb_spec (Get params "limit") EmptyString) as [E|E].
    + rewrite E. exact HL.
    + simpl. destruct (Atoi (Get params "limit")); [reflexivity | exact HL].
  - unfold applyOffset.
    destruct (applyLimit_clauses params (beforePage db table params)) as (_ & G).
    destruct (String.eqb_spec (Get params "offset") EmptyString) as [E|E].
    + rewrite E. simpl. now rewrite G.
    + simpl. destruct (Atoi (Get params "offset")); [reflexivity | now rewrite G].
Qed.

Lemma page_value n :
  minInt <= n <= maxInt ->
  (if 0 <? uint n then Some (uint n) else None)
  = if n =? 0 then None else Some (if n <? 0 then n + 2 ^ 64 else n).
Proof.
  intros H. rewrite (uint_cases n H). unfold minInt, maxInt in H.
  destruct (Z.eqb_spec n 0) as [->|Hn]; [reflexivity|].
  destruct (Z.ltb_spec n 0);
    match goal with |- context [0 <? ?x] => destruct (Z.ltb_spec 0 x) end;
    try reflexivity; lia.
Qed.

(** X13: a [limit] that [Atoi] accepts as [n] leaves no limit when [n] is
    zero (goqu's [Limit(0)] clears the clause), and sets the limit [n] when
    [n] is positive and [n + 2^64] when [n] is negative; an [offset] that
    [Atoi] accepts as [n] hands [Offset] the number [n] when [n] is not
    negative, zero included, and [n + 2^64] when it is negative. *)
Theorem page_clauses db table params :
  (forall n, Atoi (Get params "limit") = Some n ->
     dLimit (BuildDataset db table params)
     = if n =? 0 then None else Some (if n <? 0 then n + 2 ^ 64 else n))
  /\ (forall n, Atoi (Get params "offset") = Some n ->
     dOffset (BuildDataset db table params)
     = Some (if n <? 0 then n + 2 ^ 64 else n)).
Proof.
  destruct (BuildDataset_page db table params) as [HL HO].
  split; intros n H.
  - rewrite HL, H. apply page_value, (Atoi_range _ _ H).
  - rewrite HO, H. simpl. now rewrite (uint_cases n (Atoi_range _ _ H)).
Qed.

Lemma page_clauses_witness :
  Atoi (Get [("limit", ("-1", [])); ("offset", ("0", []))] "limit") = Some (-1)
  /\ Atoi (Get [("limit", ("-1", [])); ("offset", ("0", []))] "offset") = Some 0
  /\ dLimit (BuildDataset noColumns "posts"
               [("limit", ("-1", [])); ("offset", ("0", []))])
     = Some 18446744073709551615
  /\ dOffset (BuildDataset noColumns "posts"
                [("limit", ("-1", [])); ("offset", ("0", []))])
     = Some 0.
Proof.
  split; [reflexivity|]. split; [reflexivity|].
  destruct (page_clauses noColumns "posts"
              [("limit", ("-1", [])); ("offset", ("0", []))]) as [HL HO].
  split; [apply (HL (-1)) | apply (HO 0)]; reflexivity.
Defined.

(** A zero limit, however written, leaves the query without a limit. *)
Example zero_limit_sets_no_limit :
  dLimit (BuildDataset noColumns "posts" [("limit", ("0", []))]) = None
  /\ dLimit (BuildDataset noColumns "posts" [("limit", ("00", []))]) = None
  /\ dLimit (BuildDataset noColumns "posts" [("limit", ("-0", []))]) = None
  /\ dOffset (BuildDataset noColumns "posts" [("offset", ("0", []))]) = Some 0.
Proof. vm_compute. auto. Qed.

(** ** [Atoi] on plain decimals *)

Lemma digitsValue_digits ds : forall acc,
  allb isDigit ds = true ->
  exists v, digitsValue acc ds = Some (acc * 10 ^ Z.of_nat (String.length ds) + v)
            /\ 0 <= v < 10 ^ Z.of_nat (String.length ds).
Proof.
  induction ds as [|c ds IH]; intros acc H.
  - exists 0. simpl. split; [f_equal; lia | lia].
  - simpl in H. apply andb_true_iff in H as [Hc Hds].
    cbn [digitsValue]. rewrite Hc.
    destruct (IH (acc * 10 + (byteZ c - byteZ "0")) Hds) as (v & Hv & Hr).
    assert (0 <= byteZ c - byteZ "0" <= 9) as Hd.
    { unfold isDigit in Hc. apply andb_true_iff in Hc as [H1 H2].
      change (byteZ "0") with 48 in *. change (byteZ "9") with 57 in *. lia. }
    cbn [String.length]. rewrite Nat2Z.inj_succ, Z.pow_succ_r by lia.
    set (p := 10 ^ Z.of_nat (String.length ds)) in *.
    exists ((byteZ c - byteZ "0") * p + v). split.
    + rewrite Hv. f_equal. lia.
    + nia.
Qed.

Lemma Atoi_digits ds :
  allb isDigit ds = true -> ds <> EmptyString -> (String.length ds <= 18)%nat ->
  exists n, Atoi ds = Some n /\ digitsValue 0 ds = Some n /\ 0 <= n < 10 ^ 18.
Proof.
  intros Hd Hne Hlen.
  destruct (digitsValue_digits ds 0 Hd) as (v & Hv & Hr).
  assert (10 ^ Z.of_nat (String.length ds) <= 10 ^ 18) as Hp
    by (apply Z.pow_le_mono_r; lia).
  exists v. simpl in Hv. split; [|split; [exact Hv | lia]].
  unfold Atoi.
  assert ((match ds with
           | String "-" s' => (true, s')
           | String "+" s' => (false, s')
           | _ => (false, ds)
           end) = (false, ds)) as ->.
  { destruct ds as [|c ds']; [reflexivity|].
    simpl in Hd. apply andb_true_iff in Hd as [Hc _].
    destruct c as [[] [] [] [] [] [] [] []]; try reflexivity; discriminate Hc. }
  destruct ds as [|c ds']; [congruence|].
  rewrite Hv.
  assert ((minInt <=? v) && (v <=? maxInt) = true) as ->; [|reflexivity].
  unfold minInt, maxInt. apply andb_true_iff.
  split; [apply Z.leb_le | apply Z.leb_le]; lia.
Qed.

(** X14: a [limit] or [offset] of one to eighteen decimal digits is taken at
    the number the digits denote: the limit is set to that number when it is
    positive and there is no limit when it is zero, and [Offset] is handed
    that number. *)
Theorem decimal_page_parameters_taken_as_written db table params :
  (forall ds, allb isDigit ds = true -> ds <> EmptyString ->
     (String.length ds <= 18)%nat -> Get params "limit" = ds ->
     exists n, digitsValue 0 ds = Some n /\ 0 <= n < 10 ^ 18
               /\ dLimit (BuildDataset db table params)
                  = if n =? 0 then None else Some n)
  /\ (forall ds, allb isDigit ds = true -> ds <> EmptyString ->
     (String.length ds <= 18)%nat -> Get params "offset" = ds ->
     exists n, digitsValue 0 ds = Some n /\ 0 <= n < 10 ^ 18
               /\ dOffset (BuildDataset db table params) = Some n).
Proof.
  destruct (BuildDataset_page db table params) as [HL HO].
  split; intros ds Hd Hne Hlen Hget;
    destruct (Atoi_digits ds Hd Hne Hlen) as (n & Ha & Hv & Hr);
    exists n; (split; [exact Hv|]); (split; [exact Hr|]);
    rewrite <- Hget in Ha.
  - rewrite HL, Ha, page_value by (unfold minInt, maxInt; lia).
    destruct (Z.ltb_spec n 0); [lia | reflexivity].
  - rewrite HO, Ha. simpl. f_equal. unfold uint. apply Z.mod_small. lia.
Qed.

Lemma decimal_page_parameters_taken_as_written_witness :
  allb isDigit "10" = true
  /\ "10" <> EmptyString
  /\ (String.length "10" <= 18)%nat
  /\ Get [("limit", ("10", []))] "limit" = "10"
  /\ exists n, digitsValue 0 "10" = Some n /\ 0 <= n < 10 ^ 18
               /\ dLimit (BuildDataset noColumns "posts" [("limit", ("10", []))])
                  = if n =? 0 then None else Some n.
Proof.
  split; [reflexivity|]. split; [discriminate|].
  split; [simpl; lia|]. split; [reflexivity|].
  destruct (decimal_page_parameters_taken_as_written noColumns "posts"
              [("limit", ("10", []))]) as [H _].
  apply (H "10"); [reflexivity | discriminate | simpl; lia | reflexivity].
Defined.

(** ** The [WHERE] clause *)

Lemma filterExpr_Some key op v e :
  filterExpr key op v = Some e ->
  filterOperators op = true /\ whereColumn e = key.
Proof.
  unfold filterExpr, filterOperators.
  repeat match goal with
         | |- context [(op =? ?x)%string] => destruct (op =? x)%string
         end; intros [= <-]; auto.
Qed.

Lemma filterExpr_supported key op v :
  filterOperators op = true -> exists e, filterExpr key op v = Some e.
Proof.
  unfold filterExpr, filterOperators.
  repeat match goal with
         | |- context [(op =? ?x)%string] => destruct (op =? x)%string
         end; intros H; try discriminate; eauto.
Qed.

(** X5: every predicate of the [WHERE] clause is on a column that is a key
    of the parameters, is none of select, order, limit and offset, holds no
    dot and no opening parenthesis, has no dotted companion key, and whose
    value starts with one of the seven operators and a dot. *)
Theorem where_only_from_plain_filter_keys db table params e :
  In e (dWhere (BuildDataset db table params)) ->
  exists v0 vs op v,
    In (whereColumn e, (v0, vs)) params
    /\ isReserved (whereColumn e) = false
    /\ Contains (whereColumn e) "." = false
    /\ Contains (whereColumn e) "(" = false
    /\ isRelatedResource (whereColumn e) params = false
    /\ SplitN2 v0 "." = [op; v]
    /\ filterOperators op = true.
Proof.
  rewrite BuildDataset_where. unfold mainFilters. intros H.
  apply in_flat_map in H as ([key [v0 vs]] & Hin & He).
  unfold paramFilter in He.
  destruct (isReserved key) eqn:Hr; [contradiction|].
  destruct (Contains key ".") eqn:Hd; [contradiction|].
  destruct (Contains key "(") eqn:Hp; [contradiction|].
  destruct (isRelatedResource key params) eqn:Hrel; [contradiction|].
  simpl in He.
  destruct (SplitN2 v0 ".") as [|op [|v [|x rest]]] eqn:Hs; try contradiction.
  destruct (filterExpr key op v) as [e'|] eqn:Hf; [|contradiction].
  destruct He as [<-|[]].
  destruct (filterExpr_Some _ _ _ _ Hf) as [Hop <-].
  exists v0, vs, op, v. auto 10.
Qed.

Lemma where_only_from_plain_filter_keys_witness :
  In (WGte "age" "18")
     (dWhere (BuildDataset noColumns "authors" [("age", ("gte.18", []))]))
  /\ exists v0 (vs : list string) op v,
       In ("age", (v0, vs)) [("age", ("gte.18", []))]
       /\ isReserved "age" = false
       /\ Contains "age" "." = false
       /\ Contains "age" "(" = false
       /\ isRelatedResource "age" [("age", ("gte.18", []))] = false
       /\ SplitN2 v0 "." = [op; v]
       /\ filterOperators op = true.
Proof.
  split; [left; reflexivity|].
  apply (where_only_from_plain_filter_keys noColumns "authors"
           [("age", ("gte.18", []))] (WGte "age" "18")).
  left. reflexivity.
Defined.

Lemma filterOperators_no_dot op :
  filterOperators op = true -> Contains op "." = false.
Proof.
  unfold filterOperators. intros H.
  repeat (apply orb_true_iff in H as [H|H]);
    apply String.eqb_eq in H; subst; reflexivity.
Qed.

Lemma filter_reaches_where db table params key op v vs e :
  In (key, (op ++ "." ++ v, vs)) params ->
  isReserved key = false ->
  Contains key "." = false ->
  Contains key "(" = false ->
  isRelatedResource key params = false ->
  Contains op "." = false ->
  filterExpr key op v = Some e ->
  In e (dWhere (BuildDataset db table params)).
Proof.
  intros Hin Hr Hd Hp Hrel Hop He.
  rewrite BuildDataset_where. unfold mainFilters.
  apply in_flat_map. exists (key, (op ++ "." ++ v, vs)). split; [exact Hin|].
  unfold paramFilter. rewrite Hr, Hd, Hp, Hrel. simpl.
  change (op ++ "." ++ v) with (op ++ String "." v).
  rewrite (SplitN2_at_first op v "."%char Hop), He. now left.
Qed.

(** X6: a parameter [key=op.v] on a plain key (none of select, order, limit
    and offset, no dot, no opening parenthesis, no dotted companion key)
    adds to the [WHERE] clause, for [op] one of the seven operators, the
    predicate of that operator on column [key] with operand [v]: [eq] the
    equality with [v], [gt], [lt], [gte] and [lte] the comparisons with [v],
    [like] the pattern match with [v], and [in] the membership in the pieces
    of [v] between its commas.  The value is cut at its first dot only, so
    [v] may hold dots. *)
Theorem supported_filter_reaches_where db table params key op v vs :
  In (key, (op ++ "." ++ v, vs)) params ->
  isReserved key = false ->
  Contains key "." = false ->
  Contains key "(" = false ->
  isRelatedResource key params = false ->
  (op = "eq" -> In (WEq key v) (dWhere (BuildDataset db table params)))
  /\ (op = "gt" -> In (WGt key v) (dWhere (BuildDataset db table params)))
  /\ (op = "lt" -> In (WLt key v) (dWhere (BuildDataset db table params)))
  /\ (op = "gte" -> In (WGte key v) (dWhere (BuildDataset db table params)))
  /\ (op = "lte" -> In (WLte key v) (dWhere (BuildDataset db table params)))
  /\ (op = "like" -> In (WLike key v) (dWhere (BuildDataset db table params)))
  /\ (op = "in" ->
      In (WIn key (Split v ",")) (dWhere (BuildDataset db table params))).
Proof.
  intros Hin Hr Hd Hp Hrel.
  repeat split; intros ->;
    now apply (filter_reaches_where db table params key _ v vs _ Hin Hr Hd Hp Hrel).
Qed.

Lemma supported_filter_reaches_where_witness :
  In ("price", ("eq" ++ "." ++ "1.5", ([] : list string)))
     [("price", ("eq.1.5", []))]
  /\ isReserved "price" = false
  /\ Contains "price" "." = false
  /\ Contains "price" "(" = false
  /\ isRelatedResource "price" [("price", ("eq.1.5", []))] = false
  /\ In (WEq "price" "1.5")
        (dWhere (BuildDataset noColumns "items" [("price", ("eq.1.5", []))])).
Proof.
  split; [left; reflexivity|].
  split; [reflexivity|]. split; [reflexivity|]. split; [reflexivity|].
  split; [reflexivity|].
  destruct (supported_filter_reaches_where noColumns "items"
              [("price", ("eq.1.5", []))] "price" "eq" "1.5" []) as [H _];
    try reflexivity.
  - left. reflexivity.
  - apply H. reflexivity.
Defined.

(** ** Joins *)

(** X8: a parameter [key=a.b] on a plain key with no equals sign in the
    value is read one way only: when [a] is one of the seven operators it
    adds no join (and is a filter unless the key has a dotted companion),
    otherwise it is no filter and adds exactly the join of table [key] on
    [a] and [b], with the columns of [key.select] when that is given. *)
Theorem plain_parameter_is_filter_or_join
    params embeddedRelations joins key a b vs :
  isReserved key = false ->
  Contains key "." = false ->
  Contains key "(" = false ->
  Contains a "." = false ->
  Contains (a ++ "." ++ b) "=" = false ->
  (filterOperators a = true ->
     parseJoinsStep params embeddedRelations joins (key, (a ++ "." ++ b, vs))
     = joins
     /\ (isRelatedResource key params = false ->
         exists e, paramFilter params (key, (a ++ "." ++ b, vs)) = Some e))
  /\ (filterOperators a = false ->
     paramFilter params (key, (a ++ "." ++ b, vs)) = None
     /\ parseJoinsStep params embeddedRelations joins (key, (a ++ "." ++ b, vs))
        = (joins ++ [mkJoin key a b
                       match lookup params (key ++ ".select") with
                       | Some (selectVal, _) => Split selectVal ","
                       | None => []
                       end])%list).
Proof.
  intros Hr Hd Hp Ha Heq.
  assert (SplitN2 (a ++ "." ++ b) "." = [a; b]) as Hs.
  { change (a ++ "." ++ b) with (a ++ String "." b).
    now apply SplitN2_at_first. }
  assert (Contains (a ++ "." ++ b) "." = true) as Hdot
    by apply Contains_app.
  unfold paramFilter, parseJoinsStep.
  rewrite Hr, Hd, Hp, Hs, Hdot, Heq. simpl.
  split; intros Hop; rewrite Hop.
  - split; [reflexivity|]. intros ->. now apply filterExpr_supported.
  - split.
    + destruct (isRelatedResource key params); [reflexivity|].
      now apply filterExpr_unsupported.
    + unfold parenthesesJoin. rewrite Hp. reflexivity.
Qed.

Lemma plain_parameter_is_filter_or_join_witness :
  isReserved "books" = false
  /\ Contains "books" "." = false
  /\ Contains "books" "(" = false
  /\ Contains "id" "." = false
  /\ Contains ("id" ++ "." ++ "author_id") "=" = false
  /\ filterOperators "id" = false
  /\ paramFilter [("books", ("id.author_id", []))] ("books", ("id" ++ "." ++ "author_id", []))
     = None
  /\ parseJoinsStep [("books", ("id.author_id", []))] [] []
       ("books", ("id" ++ "." ++ "author_id", []))
     = [mkJoin "books" "id" "author_id" []].
Proof.
  split; [reflexivity|]. split; [reflexivity|]. split; [reflexivity|].
  split; [reflexivity|]. split; [reflexivity|]. split; [reflexivity|].
  destruct (plain_parameter_is_filter_or_join
              [("books", ("id.author_id", []))] [] [] "books" "id" "author_id" []
              eq_refl eq_refl eq_refl eq_refl eq_refl) as [_ H].
  apply H. reflexivity.
Defined.

Lemma parenthesesJoin_app embedded key joins :
  parenthesesJoin embedded key joins
  = (joins ++ parenthesesJoin embedded key [])%list.
Proof.
  unfold parenthesesJoin.
  destruct (Contains key "(" && Contains key ")"); [|now rewrite app_nil_r].
  destruct (negb _); [|now rewrite app_nil_r].
  destruct (parseParenthesesJoin key); [reflexivity | now rewrite app_nil_r].
Qed.

Lemma parseJoinsStep_app params embedded joins kv :
  parseJoinsStep params embedded joins kv
  = (joins ++ parseJoinsStep params embedded [] kv)%list.
Proof.
  unfold parseJoinsStep. destruct kv as [key [v0 vs]].
  destruct (Contains key "." || isReserved key); [now rewrite app_nil_r|].
  destruct (Contains v0 "." && negb (Contains v0 "="));
    [|apply parenthesesJoin_app].
  destruct (SplitN2 v0 ".") as [|p0 [|p1 [|x rest]]];
    try apply parenthesesJoin_app.
  destruct (filterOperators p0); [now rewrite app_nil_r|].
  rewrite parenthesesJoin_app, (parenthesesJoin_app _ _ ([] ++ _)).
  now rewrite app_assoc.
Qed.

Lemma fold_parseJoinsStep_app params embedded l : forall joins,
  fold_left (parseJoinsStep params embedded) l joins
  = (joins ++ flat_map (parseJoinsStep params embedded []) l)%list.
Proof.
  induction l as [|kv l IH]; intros joins; simpl.
  - now rewrite app_nil_r.
  - rewrite IH, parseJoinsStep_app. now rewrite <- app_assoc.
Qed.

Lemma word_no_byte t c :
  isWord c = false -> allb isWord t = true -> Contains t (str1 c) = false.
Proof.
  intros Hc. induction t as [|x t IH]; intros Hw; [reflexivity|].
  simpl in Hw. apply andb_true_iff in Hw as [Hx Ht].
  rewrite Contains_byte_cons, (IH Ht), orb_false_r.
  destruct (Ascii.eqb_spec x c); [subst; congruence | reflexivity].
Qed.

Lemma word_no_paren t : allb isWord t = true -> Contains t (str1 "(") = false.
Proof. now apply word_no_byte. Qed.

Lemma Contains_byte_app a b c :
  Contains (a ++ b) (str1 c) = Contains a (str1 c) || Contains b (str1 c).
Proof.
  induction a as [|x a IH]; [reflexivity|].
  simpl append. now rewrite !Contains_byte_cons, IH, orb_assoc.
Qed.

Lemma parseParenthesesJoin_Table key j :
  parseParenthesesJoin key = Some j ->
  exists cols, key = Table j ++ "(" ++ cols ++ ")"
               /\ validIdent (Table j) = true
               /\ OnLeft j = Table j ++ "_id" /\ OnRight j = "id".
Proof.
  unfold parseParenthesesJoin.
  destruct (matchEmbed key) as [[t c]|] eqn:E; [|discriminate].
  intros [= <-]. simpl.
  apply matchEmbed_inv in E as (-> & Hne & Hw & _).
  exists c. repeat split; auto.
  unfold validIdent. rewrite Hw, andb_true_r.
  now apply negb_true_iff, String.eqb_neq.
Qed.

Lemma parseJoins_inv params table j :
  In j (parseJoins params table) ->
  exists key v0 vs,
    In (key, (v0, vs)) params
    /\ isReserved key = false
    /\ Contains key "." = false
    /\ ((Table j = key /\ SplitN2 v0 "." = [OnLeft j; OnRight j]
         /\ filterOperators (OnLeft j) = false /\ Contains v0 "=" = false)
        \/ (exists cols, key = Table j ++ "(" ++ cols ++ ")"
            /\ validIdent (Table j) = true
            /\ OnLeft j = Table j ++ "_id" /\ OnRight j = "id"
            /\ existsb (String.eqb (Table j))
                 (extractEmbeddedRelations (Get params "select")) = false)).
Proof.
  unfold parseJoins. rewrite fold_parseJoinsStep_app. simpl.
  intros H. apply in_flat_map in H as ([key [v0 vs]] & Hin & Hj).
  exists key, v0, vs. split; [exact Hin|].
  unfold parseJoinsStep in Hj.
  destruct (Contains key ".") eqn:Hd; [contradiction|].
  destruct (isReserved key) eqn:Hr; [contradiction|].
  simpl in Hj. split; [reflexivity|]. split; [reflexivity|].
  assert (forall base, In j (parenthesesJoin
            (extractEmbeddedRelations (Get params "select")) key base) ->
          In j base \/
          (exists cols, key = Table j ++ "(" ++ cols ++ ")"
            /\ validIdent (Table j) = true
            /\ OnLeft j = Table j ++ "_id" /\ OnRight j = "id"
            /\ existsb (String.eqb (Table j))
                 (extractEmbeddedRelations (Get params "select")) = false)) as Hparen.
  { intros base Hb. unfold parenthesesJoin in Hb.
    destruct (Contains key "(" && Contains key ")"); [|now left].
    destruct (existsb _ _) eqn:Hex; [now left|]. simpl in Hb.
    destruct (parseParenthesesJoin key) as [j'|] eqn:Hpj; [|now left].
    apply in_app_or in Hb as [Hb|[<-|[]]]; [now left|]. right.
    destruct (parseParenthesesJoin_Table _ _ Hpj) as (cols & Hk & Hv & Hl & Hrr).
    exists cols. repeat split; auto.
    assert (hd EmptyString (SplitN2 key "(") = Table j') as Hhd;
      [|rewrite Hhd in Hex; exact Hex].
    rewrite Hk.
    assert (Contains (Table j') (str1 "(") = false) as Hno.
    { unfold validIdent in Hv. apply andb_true_iff in Hv as [_ Hw].
      now apply word_no_paren. }
    change (Table j' ++ "(" ++ cols ++ ")") with (Table j' ++ String "(" (cols ++ ")")).
    now rewrite (SplitN2_at_first _ _ "("%char Hno). }
  destruct (Contains v0 "." && negb (Contains v0 "=")) eqn:Hv.
  - apply andb_true_iff in Hv as [Hv1 Hv2]. apply negb_true_iff in Hv2.
    destruct (SplitN2 v0 ".") as [|p0 [|p1 [|x rest]]] eqn:Hs;
      try (apply Hparen in Hj as [[]|Hj]; now right).
    destruct (filterOperators p0) eqn:Hop; [contradiction|].
    apply Hparen in Hj as [[<-|[]]|Hj]; [left | now right].
    simpl. auto.
  - apply Hparen in Hj as [[]|Hj]. now right.
Qed.

(** ** The fields of [splitSelectFields] *)

Lemma byteStep_cases st c :
  (Ascii.eqb c "," && (sDepth st =? 0) = true
   /\ byteStep st c = mkSplit (sFields st ++ [sCur st]) EmptyString 0)
  \/ (Ascii.eqb c "," && (sDepth st =? 0) = false
      /\ byteStep st c
         = mkSplit (sFields st) (sCur st ++ str1 c) (nextDepth (sDepth st) c)).
Proof.
  unfold byteStep, splitStepWith, nextDepth.
  change (rune ",") with (byteZ ","). change (rune "(") with (byteZ "(").
  change (rune ")") with (byteZ ")"). rewrite !byteZ_eqb.
  destruct (Ascii.eqb_spec c ",") as [->|Hc].
  - destruct (Z.eqb_spec (sDepth st) 0) as [E|E]; [left | right]; simpl.
    + now rewrite E.
    + auto.
  - right. split; [reflexivity|].
    destruct (Ascii.eqb c "("); [reflexivity|].
    destruct (Ascii.eqb c ")"); reflexivity.
Qed.

Lemma scanField_app a : forall d d' b,
  scanField d a = Some d' -> scanField d (a ++ b) = scanField d' b.
Proof.
  induction a as [|c a IH]; intros d d' b H; simpl in *.
  - now injection H as ->.
  - destruct (Ascii.eqb c "," && (d =? 0)); [discriminate|]. now apply IH.
Qed.

Lemma splitBytes_one_field s : forall st d,
  scanField (sDepth st) s = Some d ->
  splitBytes s st = mkSplit (sFields st) (sCur st ++ s) d.
Proof.
  induction s as [|c s IH]; intros st d H; simpl in *.
  - injection H as <-. rewrite app_empty_r. now destruct st.
  - destruct (byteStep_cases st c) as [[Hc _]|[Hc E]]; rewrite Hc in H;
      [discriminate|].
    rewrite E. rewrite (IH _ d) by exact H. simpl.
    now rewrite app_assoc_str.
Qed.

Lemma byteStep_fieldsScanned st c :
  fieldsScanned st -> fieldsScanned (byteStep st c).
Proof.
  intros [HF HC].
  destruct (byteStep_cases st c) as [[Hc E]|[Hc E]]; rewrite E; split; simpl.
  - apply andb_true_iff in Hc as [_ Hd]. apply Z.eqb_eq in Hd.
    rewrite Hd in HC. apply Forall_app. auto.
  - reflexivity.
  - exact HF.
  - rewrite (scanField_app _ _ _ _ HC). simpl. now rewrite Hc.
Qed.

Lemma splitBytes_fieldsScanned s : forall st,
  fieldsScanned st -> fieldsScanned (splitBytes s st).
Proof.
  induction s as [|c s IH]; intros st H; simpl; [exact H|].
  apply IH, byteStep_fieldsScanned, H.
Qed.

Lemma splitSelectFields_bytes s :
  utf8.ValidString s = true ->
  splitSelectFields s = splitFinish (splitBytes s splitInit).
Proof.
  intros Hv. unfold splitSelectFields.
  now rewrite (split_runes_bytes (String.length s) s (le_n _) Hv).
Qed.

Lemma Forall_removelast {A} (P : A -> Prop) l :
  Forall P l -> Forall P (removelast l).
Proof.
  induction l as [|a l IH]; intros H; [constructor|].
  inversion H; subst. destruct l as [|b l]; [constructor|].
  change (removelast (a :: b :: l)) with (a :: removelast (b :: l)).
  constructor; auto.
Qed.

(** X15: on valid UTF-8, no field [splitSelectFields] returns holds a comma
    at parenthesis depth zero, and every field but the last closes all the
    parentheses it opens. *)
Theorem fields_have_no_top_level_comma s :
  utf8.ValidString s = true ->
  Forall (fun f => exists d, scanField 0 f = Some d) (splitSelectFields s)
  /\ Forall (fun f => scanField 0 f = Some 0) (removelast (splitSelectFields s)).
Proof.
  intros Hv. rewrite (splitSelectFields_bytes s Hv).
  assert (fieldsScanned splitInit) as H0 by (split; [constructor | reflexivity]).
  destruct (splitBytes_fieldsScanned s splitInit H0) as [HF HC].
  unfold splitFinish.
  destruct (sCur (splitBytes s splitInit)) as [|c cur] eqn:Hcur;
    rewrite ?Hcur in HC.
  - change ((0 <? String.length EmptyString)%nat) with false. cbv iota. split.
    + eapply Forall_impl; [|exact HF]. intros f Hf. now exists 0.
    + now apply Forall_removelast.
  - change ((0 <? String.length (String c cur))%nat) with true. cbv iota. split.
    + apply Forall_app. split.
      * eapply Forall_impl; [|exact HF]. intros f Hf. now exists 0.
      * constructor; [eauto | constructor].
    + rewrite removelast_last. exact HF.
Qed.

Lemma fields_have_no_top_level_comma_witness :
  utf8.ValidString "id,posts(id,content)" = true
  /\ Forall (fun f => exists d, scanField 0 f = Some d)
            (splitSelectFields "id,posts(id,content)").
Proof.
  split; [reflexivity|].
  apply (fields_have_no_top_level_comma "id,posts(id,content)"). reflexivity.
Defined.

(** X16: a non-empty valid UTF-8 string without a comma at parenthesis depth
    zero comes back as a single field, itself, whatever commas it has inside
    parentheses. *)
Theorem field_without_top_level_comma_is_kept_whole f d :
  utf8.ValidString f = true ->
  f <> EmptyString ->
  scanField 0 f = Some d ->
  splitSelectFields f = [f].
Proof.
  intros Hv Hne Hs. rewrite (splitSelectFields_bytes f Hv).
  rewrite (splitBytes_one_field f splitInit d Hs). unfold splitFinish. simpl.
  destruct f; [congruence | reflexivity].
Qed.

Lemma field_without_top_level_comma_is_kept_whole_witness :
  utf8.ValidString "posts(id,content)" = true
  /\ "posts(id,content)" <> EmptyString
  /\ scanField 0 "posts(id,content)" = Some 0
  /\ splitSelectFields "posts(id,content)" = ["posts(id,content)"].
Proof.
  split; [reflexivity|]. split; [discriminate|]. split; [reflexivity|].
  apply (field_without_top_level_comma_is_kept_whole "posts(id,content)" 0);
    [reflexivity | discriminate | reflexivity].
Defined.

(** ** Valid UTF-8 and concatenation *)

Lemma is3_not_is2 c0 c1 c2 : utf8.is3 c0 c1 c2 = true -> utf8.is2 c0 c1 = false.
Proof.
  unfold utf8.is3, utf8.is2. intros H.
  repeat (apply andb_true_iff in H as [H ?]).
  apply Z.leb_le in H.
  destruct (Z.ltb_spec (byteZ c0) utf8.t3); [lia|].
  now rewrite andb_false_r.
Qed.

Lemma is4_not_is2 c0 c1 c2 c3 : utf8.is4 c0 c1 c2 c3 = true -> utf8.is2 c0 c1 = false.
Proof.
  unfold utf8.is4, utf8.is2. intros H.
  repeat (apply andb_true_iff in H as [H ?]).
  apply Z.leb_le in H. unfold utf8.t4, utf8.t3 in *.
  destruct (Z.ltb_spec (byteZ c0) 224); [lia|].
  now rewrite andb_false_r.
Qed.

Lemma is4_not_is3 c0 c1 c2 c3 : utf8.is4 c0 c1 c2 c3 = true -> utf8.is3 c0 c1 c2 = false.
Proof.
  unfold utf8.is4, utf8.is3. intros H.
  repeat (apply andb_true_iff in H as [H ?]).
  apply Z.leb_le in H.
  destruct (Z.ltb_spec (byteZ c0) utf8.t4); [lia|].
  now rewrite andb_false_r.
Qed.

Lemma rangeString_app : forall n a b,
  (String.length a <= n)%nat ->
  utf8.ValidString a = true ->
  utf8.rangeString (a ++ b) = (utf8.rangeString a ++ utf8.rangeString b)%list.
Proof.
  induction n as [|n IH]; intros a b Hlen Hv.
  - destruct a; [reflexivity | simpl in Hlen; lia].
  - destruct a as [|c0 s1]; [reflexivity|]. simpl in Hlen.
    destruct (rangeString_cases c0 s1)
      as [[Hlt E] | [Hge [(c1 & s2 & -> & H2 & E)
                        | [(c1 & c2 & s3 & -> & H3 & E)
                          | [(c1 & c2 & c3 & s4 & -> & H4 & E) | E]]]]];
      destruct (ValidString_cons _ _ _ E Hv) as [Hbad Hv']; rewrite E.
    + cbn [append utf8.rangeString]. unfold utf8.RuneSelf.
      destruct (Z.ltb_spec (byteZ c0) 128); [|lia].
      rewrite (IH s1 b) by (auto; lia). reflexivity.
    + cbn [append utf8.rangeString]. unfold utf8.RuneSelf.
      destruct (Z.ltb_spec (byteZ c0) 128); [lia|]. rewrite H2.
      rewrite (IH s2 b) by (auto; simpl in Hlen; lia). reflexivity.
    + cbn [append utf8.rangeString]. unfold utf8.RuneSelf.
      destruct (Z.ltb_spec (byteZ c0) 128); [lia|].
      rewrite (is3_not_is2 _ _ _ H3), H3.
      rewrite (IH s3 b) by (auto; simpl in Hlen; lia). reflexivity.
    + cbn [append utf8.rangeString]. unfold utf8.RuneSelf.
      destruct (Z.ltb_spec (byteZ c0) 128); [lia|].
      rewrite (is4_not_is2 _ _ _ _ H4), (is4_not_is3 _ _ _ _ H4), H4.
      rewrite (IH s4 b) by (auto; simpl in Hlen; lia). reflexivity.
    + simpl in Hbad. discriminate.
Qed.

Lemma ValidString_app a b :
  utf8.ValidString a = true -> utf8.ValidString b = true ->
  utf8.ValidString (a ++ b) = true.
Proof.
  intros Ha Hb. unfold utf8.ValidString.
  rewrite (rangeString_app (String.length a) a b (le_n _) Ha), forallb_app.
  unfold utf8.ValidString in Ha, Hb. now rewrite Ha, Hb.
Qed.

(** ** [splitSelectFields] on a longer list, and beside [strings.Split] *)

Lemma splitBytes_depth s : forall st,
  sDepth (splitBytes s st) = depthAfter (sDepth st) s.
Proof.
  induction s as [|c s IH]; intros st; simpl; [reflexivity|].
  now rewrite IH, byteStep_depth.
Qed.

Lemma splitBytes_app a : forall b st,
  splitBytes (a ++ b) st = splitBytes b (splitBytes a st).
Proof. induction a as [|c a IH]; intros b st; simpl; [reflexivity | apply IH]. Qed.

Lemma splitBytes_prefix s : forall F fields cur d,
  splitBytes s (mkSplit (F ++ fields) cur d)
  = mkSplit (F ++ sFields (splitBytes s (mkSplit fields cur d)))
            (sCur (splitBytes s (mkSplit fields cur d)))
            (sDepth (splitBytes s (mkSplit fields cur d))).
Proof.
  induction s as [|c s IH]; intros F fields cur d; simpl; [reflexivity|].
  destruct (byteStep_cases (mkSplit (F ++ fields) cur d) c) as [[Hc E]|[Hc E]];
  destruct (byteStep_cases (mkSplit fields cur d) c) as [[Hc' E']|[Hc' E']];
    simpl in *; try congruence; rewrite E, E'; simpl;
    rewrite <- ?app_assoc; apply IH.
Qed.

(** X17: for valid UTF-8 [a] and [b], [a] not empty, not ending with a
    comma at depth zero and with all its parentheses closed, the fields of
    [a,b] are the fields of [a] followed by the fields of [b]. *)
Theorem split_at_top_level_comma a b :
  utf8.ValidString a = true ->
  utf8.ValidString b = true ->
  a <> EmptyString ->
  endsAtTopComma 0 a = false ->
  depthAfter 0 a = 0 ->
  splitSelectFields (a ++ "," ++ b)
  = (splitSelectFields a ++ splitSelectFields b)%list.
Proof.
  intros Ha Hb Hne Hends Hdepth.
  assert (utf8.ValidString (a ++ "," ++ b) = true) as Hab.
  { apply ValidString_app; [exact Ha|].
    apply (ValidString_app "," b); [reflexivity | exact Hb]. }
  rewrite !splitSelectFields_bytes by assumption.
  rewrite splitBytes_app. cbn [append splitBytes].
  pose proof (splitBytes_depth a splitInit) as Hd. simpl in Hd. rewrite Hdepth in Hd.
  destruct (sCur (splitBytes a splitInit)) as [|c cur] eqn:Hcur.
  { apply splitBytes_cur_empty in Hcur as [[-> _]|Hcur]; [congruence|].
    simpl in Hcur. congruence. }
  destruct (byteStep_cases (splitBytes a splitInit) ",") as [[_ E]|[Hc _]].
  2:{ rewrite Hd in Hc. discriminate. }
  rewrite E.
  rewrite <- (app_nil_r (sFields (splitBytes a splitInit) ++ [sCur (splitBytes a splitInit)])).
  rewrite (splitBytes_prefix b _ [] EmptyString 0).
  change (mkSplit [] EmptyString 0) with splitInit.
  unfold splitFinish at 1 2. simpl sCur. simpl sFields. rewrite Hcur.
  change ((0 <? String.length (String c cur))%nat) with true. cbv iota.
  unfold splitFinish.
  destruct (0 <? String.length (sCur (splitBytes b splitInit)))%nat.
  - now rewrite <- app_assoc.
  - reflexivity.
Qed.

Lemma split_at_top_level_comma_witness :
  utf8.ValidString "id" = true
  /\ utf8.ValidString "posts(id,content)" = true
  /\ "id" <> EmptyString
  /\ endsAtTopComma 0 "id" = false
  /\ depthAfter 0 "id" = 0
  /\ splitSelectFields ("id" ++ "," ++ "posts(id,content)")
     = (splitSelectFields "id" ++ splitSelectFields "posts(id,content)")%list.
Proof.
  split; [reflexivity|]. split; [reflexivity|]. split; [discriminate|].
  split; [reflexivity|]. split; [reflexivity|].
  apply (split_at_top_level_comma "id" "posts(id,content)");
    [reflexivity | reflexivity | discriminate | reflexivity | reflexivity].
Defined.

Lemma splitBytes_no_paren s : forall F cur,
  Contains s "(" = false -> Contains s ")" = false ->
  sDepth (splitBytes s (mkSplit F cur 0)) = 0
  /\ (sFields (splitBytes s (mkSplit F cur 0))
      ++ [sCur (splitBytes s (mkSplit F cur 0))])%list
     = (F ++ match Split s "," with
             | h :: t => (cur ++ h)%string :: t
             | [] => [cur]
             end)%list.
Proof.
  induction s as [|c s IH]; intros F cur Ho Hc.
  - simpl. now rewrite app_empty_r.
  - change "(" with (str1 "(") in Ho. change ")" with (str1 ")") in Hc.
    rewrite Contains_byte_cons in Ho, Hc.
    apply orb_false_elim in Ho as [Ho1 Ho2]. apply orb_false_elim in Hc as [Hc1 Hc2].
    cbn [splitBytes Split].
    destruct (byteStep_cases (mkSplit F cur 0) c) as [[Hcomma E]|[Hcomma E]];
      rewrite E; simpl in Hcomma; rewrite andb_true_r in Hcomma; rewrite Hcomma.
    + destruct (IH (F ++ [cur])%list EmptyString Ho2 Hc2) as [Hd Hf].
      split; [exact Hd|]. simpl sFields. simpl sCur. rewrite Hf, <- app_assoc.
      destruct (Split_cons s ",") as (h & t & Es). rewrite Es. simpl.
      now rewrite app_empty_r.
    + simpl sFields; simpl sCur; simpl sDepth.
      assert (nextDepth 0 c = 0) as -> by (unfold nextDepth; now rewrite Ho1, Hc1).
      destruct (IH F (cur ++ str1 c) Ho2 Hc2) as [Hd Hf].
      split; [exact Hd|]. rewrite Hf.
      destruct (Split_cons s ",") as (h & t & Es). rewrite Es.
      now rewrite app_assoc_str.
Qed.

(** X18: on a non-empty valid UTF-8 string without parentheses that does not
    end with a comma, [splitSelectFields] and [strings.Split] on the comma
    agree. *)
Theorem split_without_parentheses_is_Split s :
  utf8.ValidString s = true ->
  s <> EmptyString ->
  endsAtTopComma 0 s = false ->
  Contains s "(" = false ->
  Contains s ")" = false ->
  splitSelectFields s = Split s ",".
Proof.
  intros Hv Hne Hends Ho Hc. rewrite (splitSelectFields_bytes s Hv).
  destruct (splitBytes_no_paren s [] EmptyString Ho Hc) as [_ Hf].
  change (mkSplit [] EmptyString 0) with splitInit in Hf.
  unfold splitFinish.
  destruct (sCur (splitBytes s splitInit)) as [|c cur] eqn:Hcur.
  - apply splitBytes_cur_empty in Hcur as [[-> _]|Hcur]; [congruence|].
    simpl in Hcur. congruence.
  - change ((0 <? String.length (String c cur))%nat) with true. cbv iota.
    rewrite Hf. destruct (Split_cons s ",") as (h & t & Es). now rewrite Es.
Qed.

Lemma split_without_parentheses_is_Split_witness :
  utf8.ValidString "id,first_name" = true
  /\ "id,first_name" <> EmptyString
  /\ endsAtTopComma 0 "id,first_name" = false
  /\ Contains "id,first_name" "(" = false
  /\ Contains "id,first_name" ")" = false
  /\ splitSelectFields "id,first_name" = Split "id,first_name" ",".
Proof.
  split; [reflexivity|]. split; [discriminate|]. split; [reflexivity|].
  split; [reflexivity|]. split; [reflexivity|].
  apply (split_without_parentheses_is_Split "id,first_name");
    [reflexivity | discriminate | reflexivity | reflexivity | reflexivity].
Defined.

(** ** [Split] and [Join] *)

Lemma Join_Split s sep : Join (Split s sep) (str1 sep) = s.
Proof.
  induction s as [|c s IH]; [reflexivity|]. simpl.
  destruct (Split_cons s sep) as (h & t & E). rewrite E in *.
  destruct (Ascii.eqb_spec c sep) as [->|Hc].
  - change (Join (EmptyString :: h :: t) (str1 sep))
      with (EmptyString ++ str1 sep ++ Join (h :: t) (str1 sep)).
    now rewrite IH.
  - destruct t as [|h' t].
    + simpl in *. now rewrite IH.
    + change (Join (String c h :: h' :: t) (str1 sep))
        with (String c (h ++ str1 sep ++ Join (h' :: t) (str1 sep))).
      f_equal. exact IH.
Qed.

Lemma map_id_on {A} (f : A -> A) l :
  (forall x, In x l -> f x = x) -> map f l = l.
Proof.
  induction l as [|a l IH]; intros H; [reflexivity|]. simpl.
  rewrite H by now left. rewrite IH; [reflexivity|]. intros x Hx. apply H. now right.
Qed.

(** X4: when no piece of a non-empty child column list carries surrounding
    white space, the columns of the embed are the pieces between the commas
    and the list written into the subquery is the text between the
    parentheses, unchanged. *)
Theorem child_columns_written_as_listed colsStr :
  colsStr <> EmptyString ->
  (forall piece, In piece (Split colsStr ",") -> TrimSpace piece = piece) ->
  embedCols colsStr = Split colsStr ","
  /\ embedColList (embedCols colsStr) = colsStr.
Proof.
  intros Hne Htrim.
  assert (embedCols colsStr = Split colsStr ",") as E.
  { unfold embedCols. apply String.eqb_neq in Hne. rewrite Hne.
    now apply map_id_on. }
  split; [exact E|]. rewrite E. unfold embedColList.
  destruct (Split_cons colsStr ",") as (h & t & Es).
  rewrite Es, <- Es. apply (Join_Split colsStr ","%char).
Qed.

Lemma child_columns_written_as_listed_witness :
  "id,content" <> EmptyString
  /\ (forall piece, In piece (Split "id,content" ",") -> TrimSpace piece = piece)
  /\ embedCols "id,content" = Split "id,content" ","
  /\ embedColList (embedCols "id,content") = "id,content".
Proof.
  assert (forall piece, In piece (Split "id,content" ",") -> TrimSpace piece = piece)
    as H by (intros piece [<-|[<-|[]]]; reflexivity).
  split; [discriminate|]. split; [exact H|].
  apply (child_columns_written_as_listed "id,content"); [discriminate | exact H].
Defined.

(** ** Select fields *)

(** X3: a select field is compiled in one of two ways and no other: it is
    a word, an opening parenthesis, a text without line feed and a closing
    parenthesis, and becomes the embed subquery of that word and text; or it
    has no such form and becomes a column of exactly its own name. *)
Theorem select_field_is_embed_or_column db table f :
  (exists relTable colsStr,
      f = relTable ++ "(" ++ colsStr ++ ")"
      /\ validIdent relTable = true
      /\ noLineFeed colsStr = true
      /\ selectField db table f = SelL (embedSub db table relTable colsStr))
  \/ ((forall relTable colsStr,
         validIdent relTable = true -> noLineFeed colsStr = true ->
         f <> relTable ++ "(" ++ colsStr ++ ")")
      /\ selectField db table f = SelC f).
Proof.
  destruct (matchEmbed f) as [[rel cols]|] eqn:E.
  - left. exists rel, cols.
    pose proof (selectField_embed db table f rel cols E) as Hs.
    apply matchEmbed_inv in E as (-> & Hne & Hw & Hlf).
    repeat split; auto.
    unfold validIdent. rewrite Hw, andb_true_r.
    now apply negb_true_iff, String.eqb_neq.
  - right. split.
    + intros rel cols Hv Hlf ->. unfold validIdent in Hv.
      apply andb_true_iff in Hv as [Hne Hw].
      apply negb_true_iff, String.eqb_neq in Hne.
      rewrite (matchEmbed_app rel cols Hne Hw Hlf) in E. discriminate.
    + unfold selectField. rewrite E.
      destruct (Contains f "(" && Contains f ")"); reflexivity.
Qed.

Lemma select_field_is_embed_or_column_witness :
  selectField noColumns "authors" "first-name(x)" = SelC "first-name(x)".
Proof.
  destruct (select_field_is_embed_or_column noColumns "authors" "first-name(x)")
    as [(rel & cols & _ & _ & _ & H) | [_ H]]; [|exact H].
  discriminate H.
Defined.

(** ** Embedded relations *)

Lemma matchEmbed_name f rel cols :
  matchEmbed f = Some (rel, cols) ->
  matchEmbedName f = Some rel /\ Contains f "(" && Contains f ")" = true.
Proof.
  intros H. split.
  - unfold matchEmbed in H. unfold matchEmbedName.
    destruct (spanWord f) as [w rest].
    destruct w as [|w0 w']; [discriminate|].
    destruct rest as [|c body]; [discriminate|].
    destruct c as [[] [] [] [] [] [] [] []]; try discriminate.
    destruct (chopLast body ")"); [|discriminate].
    destruct (noLineFeed s); [|discriminate]. now injection H as -> _.
  - apply matchEmbed_inv in H as (-> & _).
    rewrite (Contains_app rel "(" (cols ++ ")")).
    replace (rel ++ "(" ++ cols ++ ")") with ((rel ++ "(" ++ cols) ++ ")" ++ "")
      by now rewrite !app_assoc_str.
    now rewrite (Contains_app (rel ++ "(" ++ cols) ")" "").
Qed.

Lemma fold_registerEmbed_keeps fields : forall acc x,
  In x acc -> In x (fold_left registerEmbed fields acc).
Proof.
  induction fields as [|f fields IH]; intros acc x H; simpl; [exact H|].
  apply IH. unfold registerEmbed.
  destruct (Contains _ "(" && Contains _ ")"); [|exact H].
  destruct (matchEmbedName _); [apply in_or_app; now left | exact H].
Qed.

Lemma fold_registerEmbed_In fields : forall acc f rel cols,
  In f fields -> matchEmbed (TrimSpace f) = Some (rel, cols) ->
  In rel (fold_left registerEmbed fields acc).
Proof.
  induction fields as [|f0 fields IH]; intros acc f rel cols Hin Hm; [contradiction|].
  simpl. destruct Hin as [->|Hin]; [|now apply (IH _ f rel cols)].
  apply fold_registerEmbed_keeps. unfold registerEmbed.
  destruct (matchEmbed_name _ _ _ Hm) as [-> ->].
  apply in_or_app. right. now left.
Qed.

Lemma embeds_registered s f rel cols :
  In f (splitSelectFields s) -> matchEmbed (TrimSpace f) = Some (rel, cols) ->
  In rel (extractEmbeddedRelations s).
Proof.
  intros Hin Hm. unfold extractEmbeddedRelations.
  destruct (String.eqb_spec s EmptyString) as [->|Hne]; [contradiction|].
  apply (fold_registerEmbed_In _ [] f rel cols Hin Hm).
Qed.

Lemma BuildDataset_joins db table params :
  dJoins (BuildDataset db table params)
  = map (joinClause table) (parseJoins params table).
Proof.
  unfold BuildDataset. cbv zeta.
  destruct (page_stages_keep
    (fold_left (fun q join => applyJoin q join table) (parseJoins params table)
       (applyWhere params (applySelect db table params (From table)))) params)
    as (_ & _ & H3).
  now rewrite H3, before_order.
Qed.

(** X9: every join of the query joins a column of the main table with a
    column of the joined table, and comes from a parameter whose key is not
    reserved and holds no dot: either [table=left.right] with [left] no
    filter operator and no equals sign in the value, or a key
    [table(cols)] with the table a word not embedded by [select], joined on
    [table_id] and [id]. *)
Theorem join_clauses_come_from_parameters db table params jc :
  In jc (dJoins (BuildDataset db table params)) ->
  fst (jcLeft jc) = table
  /\ fst (jcRight jc) = jcTable jc
  /\ exists key v0 vs,
       In (key, (v0, vs)) params
       /\ isReserved key = false
       /\ Contains key "." = false
       /\ ((jcTable jc = key
            /\ SplitN2 v0 "." = [snd (jcLeft jc); snd (jcRight jc)]
            /\ filterOperators (snd (jcLeft jc)) = false
            /\ Contains v0 "=" = false)
           \/ (exists cols, key = jcTable jc ++ "(" ++ cols ++ ")"
               /\ validIdent (jcTable jc) = true
               /\ snd (jcLeft jc) = jcTable jc ++ "_id"
               /\ snd (jcRight jc) = "id"
               /\ existsb (String.eqb (jcTable jc))
                    (extractEmbeddedRelations (Get params "select")) = false)).
Proof.
  rewrite BuildDataset_joins. intros H.
  apply in_map_iff in H as (j & <- & Hj). simpl.
  split; [reflexivity|]. split; [reflexivity|].
  exact (parseJoins_inv params table j Hj).
Qed.

Lemma join_clauses_come_from_parameters_witness :
  In (mkJoinClause "books" ("authors", "id") ("books", "author_id"))
     (dJoins (BuildDataset noColumns "authors" [("books", ("id.author_id", []))]))
  /\ fst (jcLeft (mkJoinClause "books" ("authors", "id") ("books", "author_id")))
     = "authors".
Proof.
  split; [left; reflexivity|].
  apply (join_clauses_come_from_parameters noColumns "authors"
           [("books", ("id.author_id", []))]
           (mkJoinClause "books" ("authors", "id") ("books", "author_id"))).
  left. reflexivity.
Defined.

(** X11: a relation that [select] compiles as an embed is never joined by a
    key [relation(cols)]: any join of that table comes from an explicit
    parameter [relation=left.right]. *)
Theorem embedded_relation_gets_no_inferred_join
    db table params f relTable colsStr jc :
  In f (splitSelectFields (Get params "select")) ->
  matchEmbed (TrimSpace f) = Some (relTable, colsStr) ->
  In jc (dJoins (BuildDataset db table params)) ->
  jcTable jc = relTable ->
  exists v0 vs,
    In (relTable, (v0, vs)) params
    /\ SplitN2 v0 "." = [snd (jcLeft jc); snd (jcRight jc)].
Proof.
  intros Hf Hm Hjc Ht.
  pose proof (embeds_registered _ _ _ _ Hf Hm) as Hreg.
  rewrite BuildDataset_joins in Hjc.
  apply in_map_iff in Hjc as (j & <- & Hj). simpl in *.
  destruct (parseJoins_inv params table j Hj)
    as (key & v0 & vs & Hin & _ & _ & [(Hk & Hs & _)|(cols & _ & _ & _ & _ & Hex)]).
  - exists v0, vs. rewrite <- Ht, Hk. auto.
  - exfalso. rewrite Ht in Hex.
    assert (existsb (String.eqb relTable)
              (extractEmbeddedRelations (Get params "select")) = true) as Hyes.
    { apply existsb_exists. exists relTable. split; [exact Hreg | apply String.eqb_refl]. }
    congruence.
Qed.

Lemma embedded_relation_gets_no_inferred_join_witness :
  In "posts(id)"
     (splitSelectFields
        (Get [("select", ("posts(id)", [])); ("posts(id)", (EmptyString, []));
              ("posts", ("id.author_id", []))] "select"))
  /\ matchEmbed (TrimSpace "posts(id)") = Some ("posts", "id")
  /\ In (mkJoinClause "posts" ("authors", "id") ("posts", "author_id"))
        (dJoins (BuildDataset noColumns "authors"
           [("select", ("posts(id)", [])); ("posts(id)", (EmptyString, []));
            ("posts", ("id.author_id", []))]))
  /\ exists v0 (vs : list string),
       In ("posts", (v0, vs))
          [("select", ("posts(id)", [])); ("posts(id)", (EmptyString, []));
           ("posts", ("id.author_id", []))]
       /\ SplitN2 v0 "." = ["id"; "author_id"].
Proof.
  split; [left; reflexivity|]. split; [reflexivity|].
  split; [left; reflexivity|].
  apply (embedded_relation_gets_no_inferred_join noColumns "authors"
           [("select", ("posts(id)", [])); ("posts(id)", (EmptyString, []));
            ("posts", ("id.author_id", []))]
           "posts(id)" "posts" "id"
           (mkJoinClause "posts" ("authors", "id") ("posts", "author_id")));
    try reflexivity; left; reflexivity.
Defined.

Lemma isReserved_no_paren key : isReserved key = true -> Contains key "(" = false.
Proof.
  unfold isReserved. intros H.
  repeat (apply orb_true_iff in H as [H|H]);
    apply String.eqb_eq in H; subst; reflexivity.
Qed.

(** X10: a key [table(cols)] without dot, with a value without dot, whose
    table is a word not embedded by [select], adds the left join of the main
    table's [table_id] with the table's [id]. *)
Theorem parentheses_key_adds_inferred_join
    db table params relTable colsStr v0 vs :
  In (relTable ++ "(" ++ colsStr ++ ")", (v0, vs)) params ->
  validIdent relTable = true ->
  noLineFeed colsStr = true ->
  Contains colsStr "." = false ->
  Contains v0 "." = false ->
  existsb (String.eqb relTable)
    (extractEmbeddedRelations (Get params "select")) = false ->
  In (mkJoinClause relTable (table, relTable ++ "_id") (relTable, "id"))
     (dJoins (BuildDataset db table params)).
Proof.
  intros Hin Hv Hlf Hdot Hval Hex.
  unfold validIdent in Hv. apply andb_true_iff in Hv as [Hne Hw].
  apply negb_true_iff, String.eqb_neq in Hne.
  set (key := relTable ++ "(" ++ colsStr ++ ")") in *.
  assert (matchEmbed key = Some (relTable, colsStr)) as Hm
    by now apply matchEmbed_app.
  destruct (matchEmbed_name _ _ _ Hm) as [_ Hparen].
  assert (Contains key "(" = true) as Hopen
    by (apply andb_true_iff in Hparen; tauto).
  assert (isReserved key = false) as Hres.
  { destruct (isReserved key) eqn:E; [|reflexivity].
    apply isReserved_no_paren in E. congruence. }
  assert (Contains key "." = false) as Hkd.
  { unfold key. change "." with (str1 ".") in *.
    rewrite !Contains_byte_app, Hdot.
    now rewrite (word_no_byte relTable "."%char eq_refl Hw). }
  set (join := mkJoin relTable (relTable ++ "_id") "id"
                 (if negb (String.eqb colsStr EmptyString)
                  then map TrimSpace (Split colsStr ",") else [])).
  assert (forall base,
            In join (parenthesesJoin
                       (extractEmbeddedRelations (Get params "select")) key base))
    as Hadd.
  { intros base. unfold parenthesesJoin. rewrite Hparen.
    assert (hd EmptyString (SplitN2 key "(") = relTable) as ->.
    { unfold key.
      change (relTable ++ "(" ++ colsStr ++ ")")
        with (relTable ++ String "(" (colsStr ++ ")")).
      now rewrite (SplitN2_at_first _ _ "("%char (word_no_paren _ Hw)). }
    rewrite Hex. simpl negb. cbv iota.
    unfold parseParenthesesJoin. rewrite Hm.
    apply in_or_app. right. now left. }
  rewrite BuildDataset_joins.
  apply in_map_iff. exists join. split; [reflexivity|].
  unfold parseJoins. rewrite fold_parseJoinsStep_app. simpl.
  apply in_flat_map. exists (key, (v0, vs)). split; [exact Hin|].
  unfold parseJoinsStep. rewrite Hkd, Hres, Hval. simpl. apply Hadd.
Qed.

Lemma parentheses_key_adds_inferred_join_witness :
  In ("posts" ++ "(" ++ "id,title" ++ ")", (EmptyString, ([] : list string)))
     [("posts(id,title)", (EmptyString, []))]
  /\ validIdent "posts" = true
  /\ noLineFeed "id,title" = true
  /\ Contains "id,title" "." = false
  /\ Contains EmptyString "." = false
  /\ existsb (String.eqb "posts")
       (extractEmbeddedRelations (Get [("posts(id,title)", (EmptyString, []))] "select"))
     = false
  /\ In (mkJoinClause "posts" ("authors", "posts_id") ("posts", "id"))
        (dJoins (BuildDataset noColumns "authors"
                   [("posts(id,title)", (EmptyString, []))])).
Proof.
  split; [left; reflexivity|].
  split; [reflexivity|]. split; [reflexivity|]. split; [reflexivity|].
  split; [reflexivity|]. split; [reflexivity|].
  apply (parentheses_key_adds_inferred_join noColumns "authors"
           [("posts(id,title)", (EmptyString, []))] "posts" "id,title"
           EmptyString []); try reflexivity.
  left. reflexivity.
Defined.

(** ** [HandleSelect] *)

Lemma selectField_lookup_ext db1 db2 table f :
  (forall c, In c (fieldLookup table f) -> db1 (fst c) (snd c) = db2 (fst c) (snd c)) ->
  selectField db1 table f = selectField db2 table f.
Proof.
  unfold selectField, fieldLookup.
  destruct (Contains f "(" && Contains f ")"); [|reflexivity].
  destruct (matchEmbed f) as [[rel cols]|]; [|reflexivity].
  intros H. f_equal. unfold embedSub, columnExists.
  pose proof (H _ (or_introl eq_refl)) as E. cbn [fst snd] in E.
  now rewrite E.
Qed.

Lemma BuildDataset_lookup_ext db1 db2 table params :
  (forall c, In c (BuildQueryLookups table params) ->
             db1 (fst c) (snd c) = db2 (fst c) (snd c)) ->
  BuildDataset db1 table params = BuildDataset db2 table params.
Proof.
  intros H. unfold BuildDataset. cbv zeta.
  assert (applySelect db1 table params (From table)
          = applySelect db2 table params (From table)) as ->; [|reflexivity].
  unfold applySelect. unfold BuildQueryLookups in H. cbv zeta in H.
  destruct (negb (Get params "select" =? "")%string); [|reflexivity].
  assert (selectCols db1 table (Get params "select")
          = selectCols db2 table (Get params "select")) as ->; [|reflexivity].
  unfold selectCols. apply map_ext_in. intros f Hf.
  apply selectField_lookup_ext. intros c Hc. apply H.
  apply in_flat_map. exists f. auto.
Qed.

Lemma BuildQueryLookups_shape table params c :
  In c (BuildQueryLookups table params) ->
  fst c = columnExistsSQL
  /\ exists relTable,
       validIdent relTable = true
       /\ snd c = [table; singularize relTable ++ "_id"].
Proof.
  unfold BuildQueryLookups. cbv zeta.
  destruct (negb (Get params "select" =? "")%string); [|intros []].
  intros H. apply in_flat_map in H as (f & _ & Hc).
  unfold fieldLookup in Hc.
  destruct (Contains _ "(" && Contains _ ")"); [|contradiction].
  destruct (matchEmbed (TrimSpace f)) as [[rel cols]|] eqn:E; [|contradiction].
  destruct Hc as [<-|[]]. split; [reflexivity|]. exists rel. split; [|reflexivity].
  apply matchEmbed_inv in E as (_ & Hne & Hw & _).
  unfold validIdent. rewrite Hw, andb_true_r.
  now apply negb_true_iff, String.eqb_neq.
Qed.

Lemma lookupCalls_are_lookups table params c :
  In c (lookupCalls table params) -> exists sql args, c = CallQueryRow sql args.
Proof.
  unfold lookupCalls. intros H. apply in_map_iff in H as (x & <- & _). eauto.
Qed.

(** X20: whenever [HandleSelect] sends the query to the database, the tenant
    header is not empty, the transaction was begun, and the [SET LOCAL
    search_path] statement of that tenant was the first call and succeeded.
    Between it and the query come the catalog lookups of [BuildQuery] and
    nothing else: each asks, with the statement of [columnExists], for the
    column [{related_singular}_id] of the requested table, for a related
    table that is a word.  The query is what [BuildQuery] returns for the
    table and parameters of the request on that transaction, and it depends
    on the database only through the answers to those lookups. *)
Theorem query_runs_only_in_tenant_scope
    (ToSQL : SelectDataset -> SQLQuery) (RowMap : Type)
    (begin : option (Tx RowMap)) (r : Request) (q : SQLQuery) :
  In (CallQuery q) (snd (HandleSelect ToSQL begin r)) ->
  tenantHeader r <> EmptyString
  /\ exists tx rest,
       begin = Some tx
       /\ txExec tx (searchPathSQL (tenantHeader r)) = true
       /\ q = BuildQuery ToSQL (txQueryRow tx) (urlTable r) (urlQuery r)
       /\ snd (HandleSelect ToSQL begin r)
          = (CallExec (searchPathSQL (tenantHeader r))
             :: map (fun c => CallQueryRow (fst c) (snd c))
                    (BuildQueryLookups (urlTable r) (urlQuery r))
             ++ CallQuery q :: rest)%list
       /\ (forall c, In c (BuildQueryLookups (urlTable r) (urlQuery r)) ->
             fst c = columnExistsSQL
             /\ exists relTable,
                  validIdent relTable = true
                  /\ snd c = [urlTable r; singularize relTable ++ "_id"])
       /\ (forall db',
             (forall c, In c (BuildQueryLookups (urlTable r) (urlQuery r)) ->
                        db' (fst c) (snd c) = txQueryRow tx (fst c) (snd c)) ->
             BuildQuery ToSQL db' (urlTable r) (urlQuery r) = q).
Proof.
  unfold HandleSelect.
  destruct (String.eqb_spec (tenantHeader r) EmptyString) as [E|E];
    [intros []|].
  destruct begin as [tx|]; [|intros []].
  destruct (txExec tx (searchPathSQL (tenantHeader r))) eqn:Hexec; simpl negb;
    cbv iota zeta.
  2:{ simpl. intros [H|[H|[]]]; discriminate H. }
  assert (forall tail,
            In (CallQuery q)
               (CallExec (searchPathSQL (tenantHeader r))
                :: lookupCalls (urlTable r) (urlQuery r)
                ++ CallQuery (BuildQuery ToSQL (txQueryRow tx) (urlTable r) (urlQuery r))
                :: tail)%list ->
            ~ In (CallQuery q) tail ->
            q = BuildQuery ToSQL (txQueryRow tx) (urlTable r) (urlQuery r)) as Hq.
  { intros tail [H|H] Htail; [discriminate H|].
    apply in_app_or in H as [H|[H|H]].
    - apply lookupCalls_are_lookups in H as (sql & args & H). discriminate H.
    - now injection H.
    - contradiction. }
  assert (forall rest,
    q = BuildQuery ToSQL (txQueryRow tx) (urlTable r) (urlQuery r) ->
    tenantHeader r <> EmptyString
    /\ exists tx0 rest0,
         Some tx = Some tx0
         /\ txExec tx0 (searchPathSQL (tenantHeader r)) = true
         /\ q = BuildQuery ToSQL (txQueryRow tx0) (urlTable r) (urlQuery r)
         /\ (CallExec (searchPathSQL (tenantHeader r))
             :: lookupCalls (urlTable r) (urlQuery r)
             ++ CallQuery (BuildQuery ToSQL (txQueryRow tx) (urlTable r) (urlQuery r))
             :: rest)%list
            = (CallExec (searchPathSQL (tenantHeader r))
               :: map (fun c => CallQueryRow (fst c) (snd c))
                      (BuildQueryLookups (urlTable r) (urlQuery r))
               ++ CallQuery q :: rest0)%list
         /\ (forall c, In c (BuildQueryLookups (urlTable r) (urlQuery r)) ->
               fst c = columnExistsSQL
               /\ exists relTable,
                    validIdent relTable = true
                    /\ snd c = [urlTable r; singularize relTable ++ "_id"])
         /\ (forall db',
               (forall c, In c (BuildQueryLookups (urlTable r) (urlQuery r)) ->
                          db' (fst c) (snd c) = txQueryRow tx0 (fst c) (snd c)) ->
               BuildQuery ToSQL db' (urlTable r) (urlQuery r) = q)) as Hall.
  { intros rest ->. split; [exact E|]. exists tx, rest.
    split; [reflexivity|]. split; [exact Hexec|]. split; [reflexivity|].
    split; [reflexivity|].
    split; [intros c; apply BuildQueryLookups_shape|].
    intros db' Hdb. unfold BuildQuery. f_equal.
    now apply BuildDataset_lookup_ext. }
  destruct (txQuery tx _) as [err|rows]; cbn [snd]; intros H.
  - apply (Hall [CallRollback]).
    apply (Hq [CallRollback] H). intros [H'|[]]; discriminate H'.
  - apply (Hall [CallCommit; CallRollback]).
    apply (Hq [CallCommit; CallRollback] H). intros [H'|[H'|[]]]; discriminate H'.
Qed.

Lemma query_runs_only_in_tenant_scope_witness :
  In (CallQuery (mkSQLQuery EmptyString []))
     (snd (HandleSelect noRendering (Some acceptingTx) embedRequest))
  /\ tenantHeader embedRequest <> EmptyString
  /\ exists rest,
       snd (HandleSelect noRendering (Some acceptingTx) embedRequest)
       = CallExec (searchPathSQL "public")
         :: CallQueryRow columnExistsSQL ["authors"; "post_id"]
         :: CallQuery (mkSQLQuery EmptyString []) :: rest.
Proof.
  assert (In (CallQuery (mkSQLQuery EmptyString []))
             (snd (HandleSelect noRendering (Some acceptingTx) embedRequest)))
    as Hin by (right; right; left; reflexivity).
  split; [exact Hin|].
  destruct (query_runs_only_in_tenant_scope noRendering unit (Some acceptingTx)
              embedRequest (mkSQLQuery EmptyString []) Hin)
    as (Ht & tx & rest & _ & _ & _ & Htrace & _).
  split; [exact Ht|]. exists rest. exact Htrace.
Defined.

(** X21: [HandleSelect] commits exactly when it answers 200, and whenever it
    has made a call on the transaction the last call, and only the last, is
    the deferred rollback. *)
Theorem commit_and_rollback_discipline
    (ToSQL : SelectDataset -> SQLQuery) (RowMap : Type)
    (begin : option (Tx RowMap)) (r : Request) :
  (status (fst (HandleSelect ToSQL begin r)) = StatusOK
   <-> In CallCommit (snd (HandleSelect ToSQL begin r)))
  /\ (snd (HandleSelect ToSQL begin r) = []
      \/ exists calls,
           snd (HandleSelect ToSQL begin r) = (calls ++ [CallRollback])%list
           /\ ~ In CallRollback calls).
Proof.
  unfold HandleSelect.
  destruct (String.eqb (tenantHeader r) EmptyString).
  { simpl. split; [split; [discriminate | intros []] | now left]. }
  destruct begin as [tx|].
  2:{ simpl. split; [split; [discriminate | intros []] | now left]. }
  destruct (negb (txExec tx (searchPathSQL (tenantHeader r)))).
  { simpl. split.
    - split; [discriminate | intros [H|[H|[]]]; discriminate H].
    - right. exists [CallExec (searchPathSQL (tenantHeader r))].
      split; [reflexivity | intros [H|[]]; discriminate H]. }
  cbv zeta.
  assert (forall c, In c (lookupCalls (urlTable r) (urlQuery r)) ->
                    c <> CallCommit /\ c <> CallRollback) as Hl.
  { intros c Hc. apply lookupCalls_are_lookups in Hc as (sql & args & ->).
    split; discriminate. }
  destruct (txQuery tx _) as [err|rows]; cbn [fst snd status].
  - split.
    + split; [discriminate|].
      intros [H|H]; [discriminate H|].
      apply in_app_or in H as [H|[H|[H|[]]]]; try discriminate H.
      now destruct (Hl _ H).
    + right.
      exists (CallExec (searchPathSQL (tenantHeader r))
              :: lookupCalls (urlTable r) (urlQuery r)
              ++ [CallQuery (BuildQuery ToSQL (txQueryRow tx) (urlTable r) (urlQuery r))])%list.
      split; [simpl; now rewrite <- app_assoc|].
      intros [H|H]; [discriminate H|].
      apply in_app_or in H as [H|[H|[]]]; try discriminate H.
      now destruct (Hl _ H).
  - split.
    + split; [intros _ | reflexivity].
      right. apply in_or_app. right. right. now left.
    + right.
      exists (CallExec (searchPathSQL (tenantHeader r))
              :: lookupCalls (urlTable r) (urlQuery r)
              ++ [CallQuery (BuildQuery ToSQL (txQueryRow tx) (urlTable r) (urlQuery r));
                  CallCommit])%list.
      split; [simpl; now rewrite <- app_assoc|].
      intros [H|H]; [discriminate H|].
      apply in_app_or in H as [H|[H|[H|[]]]]; try discriminate H.
      now destruct (Hl _ H).
Qed.

Lemma commit_and_rollback_discipline_witness :
  status (fst (HandleSelect noRendering (Some acceptingTx)
                 (mkRequest "authors" "public" []))) = StatusOK
  /\ In CallCommit
        (snd (HandleSelect noRendering (Some acceptingTx)
                (mkRequest "authors" "public" []))).
Proof.
  split; [reflexivity|].
  destruct (commit_and_rollback_discipline noRendering unit (Some acceptingTx)
              (mkRequest "authors" "public" [])) as [[H _] _].
  apply H. reflexivity.
Defined.

(** X22: [HandleSelect] answers 400 exactly when the tenant header is empty,
    then with the text [Missing X-Tenant-ID header] and without any call to
    the database; with a tenant header the answer is 200 or 500. *)
Theorem missing_tenant_is_the_only_bad_request
    (ToSQL : SelectDataset -> SQLQuery) (RowMap : Type)
    (begin : option (Tx RowMap)) (r : Request) :
  (status (fst (HandleSelect ToSQL begin r)) = StatusBadRequest
   <-> tenantHeader r = EmptyString)
  /\ (tenantHeader r = EmptyString ->
      HandleSelect ToSQL begin r
      = (mkResponse StatusBadRequest (ErrorText "Missing X-Tenant-ID header"), []))
  /\ (tenantHeader r <> EmptyString ->
      status (fst (HandleSelect ToSQL begin r)) = StatusOK
      \/ status (fst (HandleSelect ToSQL begin r)) = StatusInternalServerError).
Proof.
  unfold HandleSelect.
  destruct (String.eqb_spec (tenantHeader r) EmptyString) as [E|E].
  { split; [split; auto|]. split; [reflexivity | congruence]. }
  destruct begin as [tx|].
  2:{ simpl. split; [split; [discriminate | congruence]|].
      split; [congruence | now right]. }
  destruct (negb (txExec tx (searchPathSQL (tenantHeader r)))).
  { simpl. split; [split; [discriminate | congruence]|].
    split; [congruence | now right]. }
  cbv zeta.
  destruct (txQuery tx _) as [err|rows]; cbn [fst status];
    (split; [split; [discriminate | congruence]|]);
    (split; [congruence | auto]).
Qed.

Lemma missing_tenant_is_the_only_bad_request_witness :
  tenantHeader (mkRequest "authors" EmptyString []) = EmptyString
  /\ HandleSelect noRendering (Some acceptingTx) (mkRequest "authors" EmptyString [])
     = (mkResponse StatusBadRequest (ErrorText "Missing X-Tenant-ID header"), []).
Proof.
  split; [reflexivity|].
  destruct (missing_tenant_is_the_only_bad_request noRendering unit
              (Some acceptingTx) (mkRequest "authors" EmptyString []))
    as (_ & H & _).
  apply H. reflexivity.
Defined.

(** ** Empty select *)

(** X2: [splitSelectFields] returns no field only for the empty string, for
    any bytes whatever; so a non-empty [select] compiles to exactly one select
    expression per field and never falls back to the star. *)
Theorem no_fields_only_for_empty_select db table s :
  (splitSelectFields s = [] <-> s = EmptyString)
  /\ (s <> EmptyString ->
      List.length (selectCols db table s) = List.length (splitSelectFields s)
      /\ selectCols db table s <> []).
Proof.
  split.
  - split.
    + intros H. destruct (String.eqb_spec s EmptyString) as [E|E]; [exact E|].
      now apply splitSelectFields_nonempty in E.
    + intros ->. reflexivity.
  - intros Hne. split; [apply length_map | now apply selectCols_nonempty].
Qed.

Lemma no_fields_only_for_empty_select_witness :
  "id,name" <> EmptyString
  /\ List.length (selectCols noColumns "authors" "id,name") = 2%nat
  /\ selectCols noColumns "authors" "id,name" <> [].
Proof.
  split; [discriminate|].
  destruct (no_fields_only_for_empty_select noColumns "authors" "id,name")
    as [_ H].
  apply H. discriminate.
Defined.

(** ** Related resources *)

Lemma In_mainFilters_inv params l e :
  In e (mainFilters params l) ->
  exists v0 vs,
    In (whereColumn e, (v0, vs)) l
    /\ paramFilter params (whereColumn e, (v0, vs)) = Some e.
Proof.
  unfold mainFilters. intros H.
  apply in_flat_map in H as ([key [v0 vs]] & Hin & He).
  destruct (paramFilter params (key, (v0, vs))) as [e'|] eqn:Hp; [|contradiction].
  destruct He as [<-|[]].
  assert (whereColumn e' = key) as Hk.
  { unfold paramFilter in Hp.
    destruct (isReserved key || Contains key "."); [discriminate|].
    destruct (Contains key "(" || isRelatedResource key params); [discriminate|].
    destruct (SplitN2 v0 ".") as [|op [|v [|x rest]]]; try discriminate.
    now apply filterExpr_Some in Hp. }
  rewrite Hk. eauto.
Qed.

(** X7: a key that has a dotted companion parameter (as [posts] beside
    [posts.select]) is never a column of the [WHERE] clause. *)
Theorem related_resource_key_is_not_filtered db table params key suffix vals e :
  In (key ++ "." ++ suffix, vals) params ->
  In e (dWhere (BuildDataset db table params)) ->
  whereColumn e <> key.
Proof.
  intros Hcomp He Hk. rewrite BuildDataset_where in He.
  apply In_mainFilters_inv in He as (v0 & vs & _ & Hp).
  rewrite Hk in Hp. unfold paramFilter in Hp.
  assert (isRelatedResource key params = true) as Hrel.
  { unfold isRelatedResource. apply existsb_exists.
    exists (key ++ "." ++ suffix, vals). split; [exact Hcomp|]. cbn [fst].
    rewrite <- (app_assoc_str key "." suffix). apply HasPrefix_app. }
  rewrite Hrel, orb_true_r in Hp.
  destruct (isReserved key || Contains key "."); discriminate.
Qed.

Lemma related_resource_key_is_not_filtered_witness :
  In ("posts" ++ "." ++ "select", ("id", ([] : list string)))
     [("posts", ("eq.1", [])); ("posts.select", ("id", [])); ("id", ("eq.3", []))]
  /\ In (WEq "id" "3")
        (dWhere (BuildDataset noColumns "authors"
           [("posts", ("eq.1", [])); ("posts.select", ("id", []));
            ("id", ("eq.3", []))]))
  /\ whereColumn (WEq "id" "3") <> "posts".
Proof.
  split; [right; left; reflexivity|].
  split; [left; reflexivity|].
  apply (related_resource_key_is_not_filtered noColumns "authors"
           [("posts", ("eq.1", [])); ("posts.select", ("id", []));
            ("id", ("eq.3", []))] "posts" "select" ("id", []) (WEq "id" "3")).
  - right; left; reflexivity.
  - left; reflexivity.
Defined.

(** ** [TrimSpace] *)

Lemma allb_app p a b : allb p (a ++ b) = allb p a && allb p b.
Proof. induction a as [|c a IH]; simpl; [reflexivity|]. now rewrite IH, andb_assoc. Qed.

Lemma srev_app a b : srev (a ++ b) = srev b ++ srev a.
Proof.
  induction a as [|c a IH]; simpl.
  - now rewrite app_empty_r.
  - now rewrite IH, app_assoc_str.
Qed.

Lemma srev_involutive s : srev (srev s) = s.
Proof.
  induction s as [|c s IH]; [reflexivity|]. simpl.
  now rewrite srev_app, IH.
Qed.

Lemma allb_srev p s : allb p (srev s) = allb p s.
Proof.
  induction s as [|c s IH]; [reflexivity|]. simpl.
  rewrite allb_app, IH. simpl. rewrite andb_true_r. apply andb_comm.
Qed.

Lemma TrimLeftSpace_pad l s :
  allb asciiSpace l = true -> TrimLeftSpace (l ++ s) = TrimLeftSpace s.
Proof.
  induction l as [|c l IH]; intros H; [reflexivity|].
  simpl in H. apply andb_true_iff in H as [Hc Hl].
  unfold asciiSpace in Hc. apply andb_true_iff in Hc as [H1 H2].
  cbn [append TrimLeftSpace]. rewrite H1, H2. now apply IH.
Qed.

Lemma TrimLeftSpace_solid s : startsSolid s = true -> TrimLeftSpace s = s.
Proof.
  destruct s as [|c s]; [discriminate|]. simpl startsSolid. unfold solidByte.
  intros H. apply andb_true_iff in H as [H1 H2]. apply negb_true_iff in H2.
  cbn [TrimLeftSpace]. now rewrite H1, H2.
Qed.

Lemma trimLeftSpaceRev_pad l s :
  allb asciiSpace l = true -> trimLeftSpaceRev (l ++ s) = trimLeftSpaceRev s.
Proof.
  induction l as [|c l IH]; intros H; [reflexivity|].
  simpl in H. apply andb_true_iff in H as [Hc Hl].
  unfold asciiSpace in Hc. apply andb_true_iff in Hc as [H1 H2].
  cbn [append trimLeftSpaceRev]. rewrite H1, H2. now apply IH.
Qed.

Lemma trimLeftSpaceRev_solid s : startsSolid s = true -> trimLeftSpaceRev s = s.
Proof.
  destruct s as [|c s]; [discriminate|]. simpl startsSolid. unfold solidByte.
  intros H. apply andb_true_iff in H as [H1 H2]. apply negb_true_iff in H2.
  cbn [trimLeftSpaceRev]. now rewrite H1, H2.
Qed.

Lemma startsSolid_app a b : startsSolid a = true -> startsSolid (a ++ b) = true.
Proof. destruct a; [discriminate | auto]. Qed.

(** X19: [TrimSpace] removes ASCII white space on both sides of a text that
    begins and ends with an ASCII byte that is no white space, and nothing
    of that text. *)
Theorem TrimSpace_strips_ascii_padding l core r :
  allb asciiSpace l = true ->
  allb asciiSpace r = true ->
  startsSolid core = true ->
  startsSolid (srev core) = true ->
  TrimSpace (l ++ core ++ r) = core.
Proof.
  intros Hl Hr Hs He. unfold TrimSpace, TrimRightSpace.
  rewrite (TrimLeftSpace_pad l _ Hl).
  rewrite (TrimLeftSpace_solid _ (startsSolid_app core r Hs)).
  rewrite srev_app, trimLeftSpaceRev_pad by now rewrite allb_srev.
  rewrite (trimLeftSpaceRev_solid _ He). apply srev_involutive.
Qed.

Lemma TrimSpace_strips_ascii_padding_witness :
  allb asciiSpace " " = true
  /\ allb asciiSpace "  " = true
  /\ startsSolid "first_name" = true
  /\ startsSolid (srev "first_name") = true
  /\ TrimSpace (" " ++ "first_name" ++ "  ") = "first_name".
Proof.
  split; [reflexivity|]. split; [reflexivity|]. split; [reflexivity|].
  split; [reflexivity|].
  apply (TrimSpace_strips_ascii_padding " " "first_name" "  "); reflexivity.
Defined.
